(** * Folder scanner: content extractor, tree renderer, file collector

    A shallow embedding of [src/main.py].

    Conventions of the embedding.
    - A Python [str] is a [string]; one [ascii] stands for one character
      (a code point below 256), so [String.length] is Python's [len].
    - A text file is given by what [open(..., errors='ignore')] delivers:
      the decoded text with newlines already translated to a line feed.
    - The file system is a finite tree of regular files and directories;
      a directory whose listing raises [PermissionError] has no listing.
    - Paths are POSIX: the separator is a slash and sibling [Path] objects
      compare by their name, character by character.
    - An exception is a value; code that may raise returns a [result]. *)

From Stdlib Require Import List String Ascii Bool Arith Lia.
From Stdlib Require Import Sorting.Sorted Sorting.Permutation.
From Stdlib Require Import DecimalString.
Import ListNotations.
Open Scope string_scope.
Set Warnings "-register-all".

(** ** Python string primitives *)

Module PyStr.

Definition LF : ascii := "010"%char.
Definition nl : string := String LF "".

Definition code (c : ascii) : nat := nat_of_ascii c.

(** [str.isspace] on one character, for code points below 256. *)
Definition isspace (c : ascii) : bool :=
  let n := code c in
  (((9 <=? n) && (n <=? 13)) || ((28 <=? n) && (n <=? 32))
   || (n =? 133) || (n =? 160))%nat.

(** [str.lower] on one character, for code points below 256. *)
Definition lower_char (c : ascii) : ascii :=
  let n := code c in
  if (((65 <=? n) && (n <=? 90))
      || ((192 <=? n) && (n <=? 222) && negb (n =? 215)))%nat
  then ascii_of_nat (n + 32) else c.

Fixpoint lower (s : string) : string :=
  match s with
  | "" => ""
  | String c r => String (lower_char c) (lower r)
  end.

Fixpoint lstrip (s : string) : string :=
  match s with
  | "" => ""
  | String c r => if isspace c then lstrip r else s
  end.

Fixpoint rstrip (s : string) : string :=
  match s with
  | "" => ""
  | String c r =>
      match rstrip r with
      | "" => if isspace c then "" else String c ""
      | r' => String c r'
      end
  end.

Definition strip (s : string) : string := rstrip (lstrip s).

(** [s[:n]] *)
Definition take (n : nat) (s : string) : string := substring 0 n s.

Definition startswith (p s : string) : bool := prefix p s.

(** [sep.join(l)] *)
Fixpoint join (sep : string) (l : list string) : string :=
  match l with
  | [] => ""
  | [x] => x
  | x :: r => x ++ sep ++ join sep r
  end.

(** [x in l] for a list of strings. *)
Definition mem (x : string) (l : list string) : bool :=
  existsb (String.eqb x) l.

(** [f.readlines()]: the text cut after every line feed, which each line
    keeps. *)
Fixpoint readlines (s : string) : list string :=
  match s with
  | "" => []
  | String c r =>
      if Ascii.eqb c LF then nl :: readlines r
      else match readlines r with
           | [] => [String c ""]
           | l :: ls => String c l :: ls
           end
  end.

(** The characters [str.splitlines] breaks a line at. *)
Definition is_linebreak (c : ascii) : bool :=
  let n := code c in
  (((10 <=? n) && (n <=? 13)) || ((28 <=? n) && (n <=? 30))
   || (n =? 133))%nat.

Definition CR : ascii := "013"%char.

(** [s.splitlines()]: line breaks are dropped, a carriage return followed
    by a line feed is one break, and no empty last line is produced. *)
Fixpoint splitlines (s : string) : list string :=
  match s with
  | "" => []
  | String c r =>
      if is_linebreak c then
        match r with
        | String d r' =>
            if Ascii.eqb c CR && Ascii.eqb d LF
            then "" :: splitlines r'
            else "" :: splitlines r
        | "" => [""]
        end
      else match splitlines r with
           | [] => [String c ""]
           | l :: ls => String c l :: ls
           end
  end.

(** [sorted(l, key=key)] for string keys: a stable insertion sort. *)
Section Sorted.
Context {A : Type} (key : A -> string).

Fixpoint insert (x : A) (l : list A) : list A :=
  match l with
  | [] => [x]
  | y :: r => if String.ltb (key y) (key x) then y :: insert x r
              else x :: l
  end.

Definition sorted (l : list A) : list A :=
  fold_right (fun x acc => insert x acc) [] l.
End Sorted.

End PyStr.

Import PyStr.

(** ** The file system *)

(** A [Path] as the scanner sees it: [name], [is_dir()], [is_file()] and
    [iterdir()].  The listing of a directory is in the order the operating
    system returns it; [None] is a directory whose listing raises
    [PermissionError]. *)
Inductive node : Type :=
| File (name : string)
| Dir (name : string) (listing : option (list node)).

Definition name (p : node) : string :=
  match p with File n => n | Dir n _ => n end.

Definition is_dir (p : node) : bool :=
  match p with Dir _ _ => true | File _ => false end.

Definition is_file (p : node) : bool :=
  match p with File _ => true | Dir _ _ => false end.

(** ** Configuration *)

Definition EXCLUDE_FOLDERS : list string :=
  ["to_exclude"; ".git"; "__pycache__"; "node_modules"; "backups"; "temp";
   "libs"].

Definition MAX_CONTENT_PREVIEW_LINES : nat := 50.
Definition MAX_CONTENT_PREVIEW_CHARS : nat := 2000.

(** ** Tree renderer *)

Definition branch : string := "├── ".
Definition last_branch : string := "└── ".

(** The non-excluded subdirectories of a listing. *)
Definition kept_dirs (entries : list node) : list node :=
  filter (fun item => is_dir item && negb (mem (name item) EXCLUDE_FOLDERS))
         entries.

Definition plain_files (entries : list node) : list node :=
  filter is_file entries.

(** [sorted([...dirs...] + [...files...])]: sibling paths compare by name. *)
Definition items_of (entries : list node) : list node :=
  sorted name (kept_dirs entries ++ plain_files entries).

(** The body of the [for i, item in enumerate(items)] loop, from index [i]
    on; [n] is [len(items)].  Every item comes with [sub], the lines that
    the recursive call writes for it under a given prefix.  The result is
    the sequence of strings passed to [file_out.write]. *)
Fixpoint write_items (prefix : string) (n i : nat)
    (items : list (node * (string -> list string))) : list string :=
  match items with
  | [] => []
  | (item, sub) :: rest =>
      let connector := if (i =? n - 1)%nat then last_branch else branch in
      (if is_dir item then
         (prefix ++ connector ++ name item ++ "/" ++ nl)
           :: sub (prefix ++ (if (i =? n - 1)%nat then "    " else "│   "))
       else
         [prefix ++ connector ++ name item ++ nl])
      ++ write_items prefix n (S i) rest
  end.

(** [_tree_generator(directory, file_out, prefix)].  The recursive call of
    the source is made on the items of the sorted list; here it is attached
    to every entry of the listing before filtering and sorting, which is
    the same call on the same item ([_tree_generator_eq] below) and is
    structurally recursive.  On a regular file [iterdir()] would raise; the
    loop only recurses into directories. *)
Fixpoint _tree_generator (directory : node) (prefix : string)
    {struct directory} : list string :=
  match directory with
  | File _ => []
  | Dir _ None => [prefix ++ "└── [Error: Permission Denied]" ++ nl]
  | Dir _ (Some entries) =>
      let sub := map (fun c => (c, _tree_generator c)) entries in
      let items :=
        sorted (fun p => name (fst p))
          (filter (fun p => is_dir (fst p)
                            && negb (mem (name (fst p)) EXCLUDE_FOLDERS)) sub
           ++ filter (fun p => is_file (fst p)) sub) in
      write_items prefix (List.length items) 0 items
  end.

(** The loop of [_tree_generator] as the source writes it. *)
Fixpoint render_items (prefix : string) (n i : nat) (items : list node)
  : list string :=
  match items with
  | [] => []
  | item :: rest =>
      let connector := if (i =? n - 1)%nat then last_branch else branch in
      (if is_dir item then
         (prefix ++ connector ++ name item ++ "/" ++ nl)
           :: _tree_generator item
                (prefix ++ (if (i =? n - 1)%nat then "    " else "│   "))
       else
         [prefix ++ connector ++ name item ++ nl])
      ++ render_items prefix n (S i) rest
  end.

(** The children order the specification describes: directories sorted,
    then files sorted. *)
Definition spec_children_order (entries : list node) : list node :=
  sorted name (kept_dirs entries) ++ sorted name (plain_files entries).

(** ** File collector *)

(** [not a or a.endswith("/")] *)
Fixpoint endswith_sep (a : string) : bool :=
  match a with
  | "" => true
  | String c "" => Ascii.eqb c "/"
  | String _ r => endswith_sep r
  end.

(** [os.path.join(a, b)] and [str(Path(a) / b)] for a normalised [a] and a
    directory entry name [b]. *)
Definition path_join (a b : string) : string :=
  if endswith_sep a then a ++ b else a ++ "/" ++ b.

(** [os.walk(top)], top-down, errors ignored.  The consumer of the
    generator may change the yielded [dirs] list in place before the walk
    descends; [prune] is that change.  Each name left in [dirs] is resolved
    in the directory again. *)
Fixpoint os_walk (prune : list string -> list string) (top : string)
    (d : node) {struct d} : list (string * list string * list string) :=
  match d with
  | File _ => []
  | Dir _ None => []
  | Dir _ (Some entries) =>
      let sub := map (fun c => (c, fun t => os_walk prune t c)) entries in
      let dirs := prune (map name (filter is_dir entries)) in
      let files := map name (filter is_file entries) in
      (top, dirs, files)
        :: flat_map
             (fun dirname =>
                match find (fun p => is_dir (fst p)
                                     && String.eqb (name (fst p)) dirname) sub
                with
                | Some p => snd p (path_join top dirname)
                | None => []
                end)
             dirs
  end.

Inductive outcome (A : Type) : Type :=
| Returned (a : A)
| SysExit (status : nat).
Arguments Returned {A} a.
Arguments SysExit {A} status.

(** [dirs[:] = [d for d in dirs if d not in EXCLUDE_FOLDERS]] *)
Definition prune_excluded (dirs : list string) : list string :=
  filter (fun d => negb (mem d EXCLUDE_FOLDERS)) dirs.

(** The [for root, dirs, files in os.walk(folder_path)] loop: the paths
    appended to [all_files_paths], in the order of the walk. *)
Definition walked_paths (folder_path : string) (r : node) : list string :=
  flat_map
    (fun '(root, dirs, files) =>
       map (fun file_name => path_join root file_name) files)
    (os_walk prune_excluded folder_path r).

(** [scan_folder_and_collect_files(folder_path)]; [root] is what the path
    names, if anything. *)
Definition scan_folder_and_collect_files (folder_path : string)
    (root : option node) : outcome (list string) :=
  match root with
  | None => SysExit 1
  | Some r =>
      if negb (is_dir r) then SysExit 1
      else
        Returned (sorted (fun p => p) (walked_paths folder_path r))
  end.

(** ** Content extractor *)

(** An exception: [type(e).__name__] and [str(e)]. *)
Record exn : Type := { kind : string; detail : string }.

Inductive result (A : Type) : Type :=
| Ok (a : A)
| Raise (e : exn).
Arguments Ok {A} a.
Arguments Raise {A} e.

(** A paragraph of a parsed document: [para.style.name] ([None] when
    [para.style] or its name is [None]) and [para.text]. *)
Record paragraph : Type := { style_name : option string; text : string }.

(** What the two ways of opening a file give: [open(...)] followed by
    [f.readlines()] on the decoded text, and [Document(filepath)] with its
    paragraphs. *)
Record file_view : Type := {
  read_text : result string;
  open_docx : result (list paragraph)
}.

(** [s[rfind(d)+1:]], if [d] occurs in [s]. *)
Fixpoint after_last (d : ascii) (s : string) : option string :=
  match s with
  | "" => None
  | String c r =>
      match after_last d r with
      | Some t => Some t
      | None => if Ascii.eqb c d then Some r else None
      end
  end.

(** [Path(filepath).name] for a path that does not end in a separator. *)
Definition path_name (filepath : string) : string :=
  match after_last "/" filepath with
  | Some t => t
  | None => filepath
  end.

(** [Path(filepath).suffix]: from the last dot of the name on, unless that
    dot is the first or the last character of the name. *)
Definition suffix (filepath : string) : string :=
  let n := path_name filepath in
  match after_last "." n with
  | Some t =>
      if (0 <? String.length n - String.length t - 1)%nat
         && negb (String.eqb t "")
      then "." ++ t else ""
  | None => ""
  end.

Definition truncation_marker : string := nl ++ "... (content truncated)".

Definition nonempty (s : string) : bool := negb (String.eqb s "").

(** [t[:n] + "..." if len(t) > n else t] *)
Definition cap (n : nat) (t : string) : string :=
  if (n <? String.length t)%nat then take n t ++ "..." else t.

(** The title loop of the text branch: the first line that is not blank,
    stripped and capped at 200 characters. *)
Fixpoint first_line_title (lines : list string) : option string :=
  match lines with
  | [] => None
  | line :: rest =>
      if nonempty (strip line) then Some (cap 200 (strip line))
      else first_line_title rest
  end.

(** The preview of the text branch and of the fallback branch. *)
Definition text_preview (lines : list string) : string :=
  let full_content := String.concat "" lines in
  if (MAX_CONTENT_PREVIEW_CHARS <? String.length full_content)%nat then
    take MAX_CONTENT_PREVIEW_CHARS full_content ++ truncation_marker
  else if (MAX_CONTENT_PREVIEW_LINES <? List.length lines)%nat then
    String.concat "" (firstn MAX_CONTENT_PREVIEW_LINES lines)
      ++ truncation_marker
  else full_content.

Definition is_heading (para : paragraph) : bool :=
  match style_name para with
  | Some n => nonempty n && startswith "heading" (lower n)
  | None => false
  end.

(** [titles_found] *)
Definition titles_found (paragraphs : list paragraph) : list string :=
  map (fun para => strip (text para))
      (filter (fun para => is_heading para && nonempty (strip (text para)))
              paragraphs).

(** The title loop of the document branch when no heading was found. *)
Fixpoint first_para_title (paragraphs : list paragraph) : option string :=
  match paragraphs with
  | [] => None
  | para :: rest =>
      if nonempty (strip (text para)) then Some (cap 150 (strip (text para)))
      else first_para_title rest
  end.

Definition docx_title (paragraphs : list paragraph) : option string :=
  let found := titles_found paragraphs in
  match found with
  | _ :: _ => Some (cap 200 (join "; " (firstn 3 found)))
  | [] => first_para_title paragraphs
  end.

Definition docx_preview (paragraphs : list paragraph) : string :=
  let full_text := join nl (map text paragraphs) in
  if (MAX_CONTENT_PREVIEW_CHARS <? String.length full_text)%nat then
    take MAX_CONTENT_PREVIEW_CHARS full_text ++ truncation_marker
  else if (MAX_CONTENT_PREVIEW_LINES <? List.length (splitlines full_text))%nat
  then
    join nl (firstn MAX_CONTENT_PREVIEW_LINES (splitlines full_text))
      ++ truncation_marker
  else full_text.

(** Truth value of [title]. *)
Definition truthy (title : option string) : bool :=
  match title with Some t => nonempty t | None => false end.

Definition not_implemented_exts : list string :=
  [".pdf"; ".xlsx"; ".xls"; ".ppt"; ".pptx"].

Definition binary_exts : list string :=
  [".jpg"; ".jpeg"; ".png"; ".gif"; ".bmp"; ".tiff"; ".svg"; ".exe"; ".dll";
   ".app"; ".bin"; ".zip"; ".gz"; ".tar"; ".rar"; ".7z"; ".mp3"; ".wav";
   ".aac"; ".flac"; ".mp4"; ".avi"; ".mov"; ".mkv"; ".webm"; ".lnk"; ".url"].

Definition extracted : Type := option string * string * string.

(** The notes the extractor writes. *)
Definition not_implemented_note (extension : string) : string :=
  "[Content extraction for " ++ extension
    ++ " not yet implemented, but file is present.]".

Definition binary_note (extension : string) : string :=
  "[Binary, media, archive, or shortcut file (" ++ extension
    ++ "). Content not displayed.]".

Definition attempted_note (extension : string) : string :=
  "[Attempted text extraction for unknown type " ++ extension ++ "]".

Definition unknown_empty_note (extension : string) : string :=
  "[Unknown file type (" ++ extension
    ++ "), appears empty or unreadable as text]".

Definition unknown_binary_note (extension : string) : string :=
  "[Unknown file type (" ++ extension
    ++ "), likely binary or not text-readable]".

Definition error_note (file_name : string) (e : exn) : string :=
  "[ERROR processing file " ++ file_name ++ ": " ++ kind e ++ " - "
    ++ detail e ++ "]".

(** The notes of the document branch. *)
Definition docx_notes (title : option string) (content_preview : string)
  : string :=
  if negb (nonempty (strip content_preview)) && negb (truthy title)
  then "[DOCX appears empty or has no extractable text/headings]"
  else if negb (nonempty (strip content_preview)) && truthy title
  then "[DOCX has headings but no other significant body text found for preview]"
  else "".

(** The [else] branch: the inner [try] with its own handler. *)
Definition fallback_branch (extension : string) (f : file_view) : extracted :=
  match read_text f with
  | Ok content =>
      let lines := readlines content in
      match lines with
      | _ :: _ =>
          let content_preview := text_preview lines in
          if nonempty (strip content_preview) then
            (None, content_preview, attempted_note extension)
          else
            (None, content_preview, unknown_empty_note extension)
      | [] => (None, "", unknown_empty_note extension)
      end
  | Raise _ => (None, "", unknown_binary_note extension)
  end.

(** The body of the outer [try].  [Document] is false when the import of
    the document library failed at start-up. *)
Definition try_body (Document : bool) (extension : string) (f : file_view)
  : result extracted :=
  if String.eqb extension ".txt" then
    match read_text f with
    | Raise e => Raise e
    | Ok content =>
        let lines := readlines content in
        match lines with
        | _ :: _ => Ok (first_line_title lines, text_preview lines, "")
        | [] => Ok (None, "", "[Empty text file]")
        end
    end
  else if String.eqb extension ".docx" && Document then
    match open_docx f with
    | Raise e => Raise e
    | Ok paragraphs =>
        let title := docx_title paragraphs in
        let content_preview := docx_preview paragraphs in
        Ok (title, content_preview, docx_notes title content_preview)
    end
  else if mem extension not_implemented_exts then
    Ok (None, "", not_implemented_note extension)
  else if mem extension binary_exts then
    Ok (None, "", binary_note extension)
  else Ok (fallback_branch extension f).

(** [get_file_title_and_content(filepath)]: the [try] and its handler. *)
Definition get_file_title_and_content (Document : bool) (filepath : string)
    (f : file_view) : result extracted :=
  let extension := lower (suffix filepath) in
  match try_body Document extension f with
  | Ok r => Ok r
  | Raise e => Ok (None, "", error_note (path_name filepath) e)
  end.

Definition title_of (r : extracted) : option string := fst (fst r).
Definition preview_of (r : extracted) : string := snd (fst r).
Definition notes_of (r : extracted) : string := snd r.

(** ** Auxiliary definitions for the statements *)

(** The extension is sent to the text branch or to the fallback branch. *)
Definition text_path (Document : bool) (extension : string) : bool :=
  String.eqb extension ".txt"
  || negb (String.eqb extension ".docx" && Document)
     && negb (mem extension not_implemented_exts)
     && negb (mem extension binary_exts).

(** [sub in s] *)
Fixpoint contains (sub s : string) : bool :=
  prefix sub s
  || match s with
     | "" => false
     | String _ r => contains sub r
     end.

(** The error note as the specification words it. *)
Definition spec_error_note (file_name : string) (e : exn) : string :=
  "ERROR processing file " ++ file_name ++ ": " ++ kind e ++ " - "
    ++ detail e.

(** Sample inputs. *)
Definition sample_text : file_view :=
  {| read_text := Ok ("Hello" ++ nl ++ "World"); open_docx := Ok [] |}.

Definition sample_empty : file_view :=
  {| read_text := Ok ""; open_docx := Ok [] |}.

Definition denied : exn :=
  {| kind := "PermissionError"; detail := "[Errno 13] Permission denied" |}.

Definition sample_unreadable : file_view :=
  {| read_text := Raise denied; open_docx := Raise denied |}.

Definition sample_docx : file_view :=
  {| read_text := Ok "PK";
     open_docx :=
       Ok [ {| style_name := Some "Normal"; text := "  " |};
            {| style_name := None; text := "First paragraph" |} ] |}.


Definition sample_long : file_view :=
  {| read_text := Ok (String.concat "" (repeat ("a" ++ nl) 51));
     open_docx := Ok (repeat {| style_name := None; text := "a" |} 51) |}.

(** No character of the string is a line break of [str.splitlines]. *)
Definition no_break (s : string) : Prop :=
  forallb (fun c => negb (is_linebreak c)) (list_ascii_of_string s) = true.


(** ** The file system: induction, well-formedness, reachability *)

Section NodeInduction.
Variable P : node -> Prop.
Hypothesis P_file : forall n, P (File n).
Hypothesis P_denied : forall n, P (Dir n None).
Hypothesis P_dir :
  forall n entries, Forall P entries -> P (Dir n (Some entries)).

Fixpoint node_induction (p : node) : P p :=
  match p with
  | File n => P_file n
  | Dir n None => P_denied n
  | Dir n (Some entries) =>
      P_dir n entries
        ((fix all (l : list node) : Forall P l :=
            match l with
            | [] => Forall_nil P
            | c :: r => Forall_cons c (node_induction c) (all r)
            end) entries)
  end.
End NodeInduction.

Fixpoint distinct (l : list string) : bool :=
  match l with
  | [] => true
  | x :: r => negb (mem x r) && distinct r
  end.

Fixpoint no_slash (s : string) : bool :=
  match s with
  | "" => true
  | String c r => negb (Ascii.eqb c "/") && no_slash r
  end.

(** A name a directory entry can have: not empty, no separator. *)
Definition valid_name (s : string) : bool := nonempty s && no_slash s.

(** The entries of one directory have valid names, all different, at every
    level. *)
Fixpoint wf_node (p : node) : bool :=
  match p with
  | File _ => true
  | Dir _ None => true
  | Dir _ (Some entries) =>
      distinct (map name entries)
      && forallb valid_name (map name entries)
      && forallb wf_node entries
  end.

Definition excluded (d : string) : bool := mem d EXCLUDE_FOLDERS.

(** [file_at d ds fname]: going down from the directory [d] through the
    subdirectories named [ds], each with a readable listing, leads to a
    listing that holds the regular file [fname]. *)
Inductive file_at : node -> list string -> string -> Prop :=
| file_here n entries fname :
    In (File fname) entries -> file_at (Dir n (Some entries)) [] fname
| file_below n entries c ds fname :
    In c entries -> file_at c ds fname ->
    file_at (Dir n (Some entries)) (name c :: ds) fname.

(** The path string of a file below [top]. *)
Definition path_of (top : string) (ds : list string) (fname : string)
  : string :=
  path_join (fold_left path_join ds top) fname.

(** Two trees that differ only in the order of their listings. *)
Inductive same_tree : node -> node -> Prop :=
| same_file n : same_tree (File n) (File n)
| same_denied n : same_tree (Dir n None) (Dir n None)
| same_dir n entries mid entries' :
    Permutation entries mid -> Forall2 same_tree mid entries' ->
    same_tree (Dir n (Some entries)) (Dir n (Some entries')).

(** Names are ordered as Python orders strings. *)
Definition str_le (a b : string) : Prop := String.leb a b = true.
Definition key_le {A : Type} (key : A -> string) (a b : A) : Prop :=
  str_le (key a) (key b).
Definition name_le : node -> node -> Prop := key_le name.

Definition denied_line (prefix : string) : string :=
  prefix ++ "└── [Error: Permission Denied]" ++ nl.

Definition connector_at (n i : nat) : string :=
  if (i =? n - 1)%nat then last_branch else branch.

Definition indent_at (n i : nat) : string :=
  if (i =? n - 1)%nat then "    " else "│   ".

(** Sample trees. *)
Definition mixed_listing : list node :=
  [Dir "b" (Some []); File "a.txt"].

Definition sample_src : node :=
  Dir "src" (Some [File "temp"; File "main.py";
                   Dir ".git" (Some [File "HEAD"])]).

Definition sample_listing : list node :=
  [ sample_src; File ".git"; Dir "locked" None;
    Dir "temp" (Some [File "scratch.txt"]); File "README" ].

Definition sample_tree : node := Dir "root" (Some sample_listing).

Definition sep_prefix (a : string) : string :=
  if endswith_sep a then a else a ++ "/".

(** A string that is empty or starts at a separator. *)
Definition at_sep (t : string) : Prop :=
  match t with
  | "" => True
  | String c _ => c = "/"%char
  end.


(** Some character of the string is not white space, which is when
    [s.strip()] is not empty. *)
Fixpoint has_ink (s : string) : bool :=
  match s with
  | "" => false
  | String c r => negb (isspace c) || has_ink r
  end.


Definition sample_blank : file_view :=
  {| read_text := Ok ("   " ++ nl ++ " ");
     open_docx := Ok [ {| style_name := Some "Heading 1"; text := "  " |} ] |}.

Definition sample_big : file_view :=
  {| read_text := Ok (String.concat "" (repeat "abcdefghij" 201));
     open_docx := Ok [] |}.

Definition sample_headings : file_view :=
  {| read_text := Ok "PK";
     open_docx :=
       Ok [ {| style_name := Some "Heading 1"; text := " Scope " |};
            {| style_name := Some "Normal"; text := "Body text" |};
            {| style_name := Some "heading 2"; text := "Plan" |} ] |}.


(** The writes of one pass of the renderer's loop, for [item] at index [i]
    of [n] items. *)
Definition entry_block (prefix : string) (n i : nat) (item : node)
  : list string :=
  if is_dir item then
    (prefix ++ connector_at n i ++ name item ++ "/" ++ nl)
      :: _tree_generator item (prefix ++ indent_at n i)
  else [prefix ++ connector_at n i ++ name item ++ nl].


(** ** Report *)

(** [s * n] *)
Definition times (s : string) (n : nat) : string :=
  String.concat "" (repeat s n).

(** [str(i)] for a natural number. *)
Definition str_of_nat (i : nat) : string :=
  NilEmpty.string_of_uint (Nat.to_uint i).

Definition dq : string := String (ascii_of_nat 34) "".

(** [generate_directory_tree(folder_path_str, output_file_object)]: the
    strings written, for the directory [root] that the path names. *)
Definition generate_directory_tree (folder_path_str : string) (root : node)
  : list string :=
  ["Directory Tree for: " ++ folder_path_str ++ nl;
   times "=" 50 ++ nl;
   path_name folder_path_str ++ "/" ++ nl]
  ++ _tree_generator root ""
  ++ [times "=" 50 ++ nl ++ nl].

(** The type label of a file entry. *)
Definition type_label (file_path_item : string) : string :=
  let file_extension :=
    if nonempty (suffix file_path_item) then suffix file_path_item
    else "[no extension]" in
  if negb (String.eqb file_extension "[no extension]")
  then lower file_extension else file_extension.

Definition not_available_line : string :=
  "Content Preview: [Not available, file might be empty, or an issue occurred during extraction]"
    ++ nl.

(** The writes that follow the location line of a file entry. *)
Definition entry_body (r : extracted) : list string :=
  let '(title, content_preview, content_notes) := r in
  (match title with
   | Some t =>
       if nonempty t then ["Extracted Title(s)/Heading(s): " ++ t ++ nl]
       else []
   | None => []
   end)
  ++ (if nonempty content_notes then ["Notes: " ++ content_notes ++ nl]
      else [])
  ++ (if nonempty content_preview && nonempty (strip content_preview) then
        ["Content Preview:" ++ nl ++ dq ++ dq ++ dq ++ nl;
         strip content_preview;
         nl ++ dq ++ dq ++ dq ++ nl]
      else if negb (nonempty content_notes)
              || (negb (contains "[Empty text file]" content_notes)
                  && negb (contains "appears empty" content_notes)
                  && negb (contains "Binary" content_notes)
                  && negb (contains "not yet implemented" content_notes))
      then [not_available_line]
      else [])
  ++ [nl ++ times "-" 60 ++ nl ++ nl].

(** One pass of the loop over [files_paths]; [view_of] is what opening a
    path gives.  An exception of the extractor would leave the loop. *)
Definition file_entry (Document : bool) (view_of : string -> file_view)
    (i : nat) (file_path_str_item : string) : result (list string) :=
  match get_file_title_and_content Document file_path_str_item
          (view_of file_path_str_item) with
  | Raise e => Raise e
  | Ok r =>
      let heading : list string :=
        ["--- File #" ++ str_of_nat i ++ " ---" ++ nl;
         "Filename: " ++ path_name file_path_str_item ++ nl;
         "Type: " ++ type_label file_path_str_item ++ nl;
         "Location: " ++ file_path_str_item ++ nl] in
      Ok (heading ++ entry_body r)%list
  end.





(** The four heading lines of the entry of file number [i]. *)
Definition entry_heading (i : nat) (file_path_str_item : string)
  : list string :=
  ["--- File #" ++ str_of_nat i ++ " ---" ++ nl;
   "Filename: " ++ path_name file_path_str_item ++ nl;
   "Type: " ++ type_label file_path_str_item ++ nl;
   "Location: " ++ file_path_str_item ++ nl].

Definition entry_rule : string := nl ++ times "-" 60 ++ nl ++ nl.

Definition sample_views (p : string) : file_view :=
  if String.eqb p "/data/root/README" then sample_text
  else if String.eqb p "/data/root/src/main.py" then sample_unreadable
  else sample_empty.


(** * Properties *)

(** ** Strings *)

Section StringFacts.

Lemma str_length_app (a b : string) :
  String.length (a ++ b) = String.length a + String.length b.
Proof.
  induction a as [|c a IH]; simpl; [reflexivity|]. now rewrite IH.
Qed.

Lemma length_substring0 (n : nat) (s : string) :
  String.length (substring 0 n s) = Nat.min n (String.length s).
Proof.
  revert s; induction n as [|n IH]; intros [|c s]; simpl; auto.
Qed.

Lemma length_take (n : nat) (s : string) :
  String.length (take n s) <= n.
Proof. unfold take. rewrite length_substring0. lia. Qed.

Lemma length_cap (n : nat) (t : string) :
  String.length (cap n t) <= n + 3.
Proof.
  unfold cap. destruct (Nat.ltb_spec n (String.length t)).
  - rewrite str_length_app. pose proof (length_take n t). simpl. lia.
  - lia.
Qed.

Lemma app_empty_r (s : string) : s ++ "" = s.
Proof. induction s; simpl; congruence. Qed.

Lemma app_assoc_str (a b c : string) : (a ++ b) ++ c = a ++ (b ++ c).
Proof. induction a; simpl; congruence. Qed.

Lemma concat_nosep_cons (l : string) (ls : list string) :
  String.concat "" (l :: ls) = l ++ String.concat "" ls.
Proof.
  destruct ls as [|l' ls]; simpl; [now rewrite app_empty_r | reflexivity].
Qed.

Lemma concat_nosep_app (xs ys : list string) :
  String.concat "" (xs ++ ys) = String.concat "" xs ++ String.concat "" ys.
Proof.
  induction xs as [|x xs IH]; [reflexivity|].
  change ((x :: xs) ++ ys)%list with (x :: (xs ++ ys))%list.
  rewrite !concat_nosep_cons, IH, app_assoc_str. reflexivity.
Qed.

(** Joining the lines that [readlines] returns gives the text back. *)
Lemma concat_readlines (s : string) : String.concat "" (readlines s) = s.
Proof.
  induction s as [|c s IH]; [reflexivity|].
  cbn [readlines]. destruct (Ascii.eqb_spec c LF) as [->|Hc].
  - rewrite concat_nosep_cons, IH. reflexivity.
  - destruct (readlines s) as [|l ls].
    + simpl in IH. subst s. reflexivity.
    + rewrite concat_nosep_cons in *. simpl. now rewrite IH.
Qed.

Lemma readlines_nil (s : string) : readlines s = [] -> s = "".
Proof.
  intros H. rewrite <- (concat_readlines s), H. reflexivity.
Qed.

Lemma length_concat_firstn (n : nat) (ls : list string) :
  String.length (String.concat "" (firstn n ls))
  <= String.length (String.concat "" ls).
Proof.
  rewrite <- (firstn_skipn n ls) at 2.
  rewrite concat_nosep_app, str_length_app. lia.
Qed.

End StringFacts.

(** ** Content extractor: previews *)

Lemma text_preview_length (lines : list string) :
  String.length (text_preview lines)
  <= MAX_CONTENT_PREVIEW_CHARS + String.length truncation_marker.
Proof.
  unfold text_preview.
  destruct (Nat.ltb_spec MAX_CONTENT_PREVIEW_CHARS
              (String.length (String.concat "" lines))) as [Hc|Hc].
  - rewrite str_length_app.
    pose proof (length_take MAX_CONTENT_PREVIEW_CHARS (String.concat "" lines)).
    lia.
  - destruct (Nat.ltb_spec MAX_CONTENT_PREVIEW_LINES (List.length lines)).
    + rewrite str_length_app.
      pose proof (length_concat_firstn MAX_CONTENT_PREVIEW_LINES lines). lia.
    + lia.
Qed.

Lemma text_preview_full (content : string) :
  String.length content <= MAX_CONTENT_PREVIEW_CHARS ->
  List.length (readlines content) <= MAX_CONTENT_PREVIEW_LINES ->
  text_preview (readlines content) = content.
Proof.
  intros Hc Hl. unfold text_preview. rewrite concat_readlines.
  destruct (Nat.ltb_spec MAX_CONTENT_PREVIEW_CHARS (String.length content));
    [lia|].
  destruct (Nat.ltb_spec MAX_CONTENT_PREVIEW_LINES
              (List.length (readlines content))); [lia|reflexivity].
Qed.

(** What the extractor returns for a readable file on a text path. *)
Lemma text_path_result (Document : bool) (filepath : string) (f : file_view)
    (content : string) :
  text_path Document (lower (suffix filepath)) = true ->
  read_text f = Ok content ->
  exists title notes,
    get_file_title_and_content Document filepath f
    = Ok (title,
          match readlines content with
          | [] => ""
          | _ => text_preview (readlines content)
          end, notes).
Proof.
  unfold text_path, get_file_title_and_content, try_body, fallback_branch.
  intros Hp Hr. rewrite Hr.
  destruct (String.eqb (lower (suffix filepath)) ".txt").
  - destruct (readlines content); eauto.
  - cbn [orb] in Hp. apply andb_prop in Hp as [Hp Hb].
    apply andb_prop in Hp as [Hd Hn].
    apply negb_true_iff in Hd, Hn, Hb. rewrite Hd, Hn, Hb.
    destruct (readlines content) as [|l ls]; eauto.
    destruct (nonempty (strip (text_preview (l :: ls)))); eauto.
Qed.

(** C3. On the plain-text path and on the unknown-extension fallback path,
    for every text read from the file, the preview is at most
    MAX_CONTENT_PREVIEW_CHARS plus the length of the truncation marker long,
    and when the text exceeds neither the character cap nor the line cap the
    preview is the text itself. *)
Theorem C3_text_preview_bound (Document : bool) (filepath : string)
    (f : file_view) (content : string) :
  text_path Document (lower (suffix filepath)) = true ->
  read_text f = Ok content ->
  exists r,
    get_file_title_and_content Document filepath f = Ok r
    /\ String.length (preview_of r)
       <= MAX_CONTENT_PREVIEW_CHARS + String.length truncation_marker
    /\ (String.length content <= MAX_CONTENT_PREVIEW_CHARS ->
        List.length (readlines content) <= MAX_CONTENT_PREVIEW_LINES ->
        preview_of r = content).
Proof.
  intros Hp Hr.
  destruct (text_path_result Document filepath f content Hp Hr)
    as (title & notes & E).
  eexists; split; [exact E|]. unfold preview_of; cbn [fst snd]. split.
  - destruct (readlines content);
      [apply Nat.le_0_l | apply text_preview_length].
  - intros Hc Hl. destruct (readlines content) eqn:El.
    + symmetry. now apply readlines_nil.
    + rewrite <- El in *. now apply text_preview_full.
Qed.

Lemma C3_text_preview_bound_witness :
  exists r,
    get_file_title_and_content true "/docs/a/b.txt" sample_text = Ok r
    /\ String.length (preview_of r)
       <= MAX_CONTENT_PREVIEW_CHARS + String.length truncation_marker
    /\ (String.length ("Hello" ++ nl ++ "World") <= MAX_CONTENT_PREVIEW_CHARS ->
        List.length (readlines ("Hello" ++ nl ++ "World"))
        <= MAX_CONTENT_PREVIEW_LINES ->
        preview_of r = "Hello" ++ nl ++ "World").
Proof.
  apply (C3_text_preview_bound true "/docs/a/b.txt" sample_text);
    reflexivity.
Defined.

(** C8. An empty file with extension .txt gives no title, the empty
    preview and the note "[Empty text file]". *)
Theorem C8_empty_txt (Document : bool) (filepath : string) (f : file_view) :
  lower (suffix filepath) = ".txt" ->
  read_text f = Ok "" ->
  get_file_title_and_content Document filepath f
  = Ok (None, "", "[Empty text file]").
Proof.
  intros He Hr. unfold get_file_title_and_content, try_body.
  rewrite He, Hr. reflexivity.
Qed.

Lemma C8_empty_txt_witness :
  get_file_title_and_content true "/notes/empty.TXT" sample_empty
  = Ok (None, "", "[Empty text file]").
Proof.
  apply (C8_empty_txt true "/notes/empty.TXT" sample_empty); reflexivity.
Defined.

(** ** Content extractor: titles *)

Lemma first_line_title_length (lines : list string) (t : string) :
  first_line_title lines = Some t -> String.length t <= 203.
Proof.
  induction lines as [|line rest IH]; simpl; [discriminate|].
  destruct (nonempty (strip line)); [|exact IH].
  intros [= <-]. apply (length_cap 200).
Qed.

Lemma first_para_title_length (paragraphs : list paragraph) (t : string) :
  first_para_title paragraphs = Some t -> String.length t <= 153.
Proof.
  induction paragraphs as [|para rest IH]; simpl; [discriminate|].
  destruct (nonempty (strip (text para))); [|exact IH].
  intros [= <-]. apply (length_cap 150).
Qed.

Lemma docx_title_length (paragraphs : list paragraph) (t : string) :
  docx_title paragraphs = Some t -> String.length t <= 203.
Proof.
  unfold docx_title. destruct (titles_found paragraphs).
  - intros H. apply first_para_title_length in H. lia.
  - intros [= <-]. apply (length_cap 200).
Qed.

Lemma fallback_branch_title (extension : string) (f : file_view) :
  title_of (fallback_branch extension f) = None.
Proof.
  unfold fallback_branch. destruct (read_text f) as [content|e]; [|reflexivity].
  destruct (readlines content) as [|l ls]; [reflexivity|].
  cbv zeta. destruct (nonempty _); reflexivity.
Qed.

(** The extractor, branch by branch. *)
Lemma get_txt (Document : bool) (filepath : string) (f : file_view) :
  lower (suffix filepath) = ".txt" ->
  get_file_title_and_content Document filepath f
  = match read_text f with
    | Ok content =>
        match readlines content with
        | [] => Ok (None, "", "[Empty text file]")
        | lines => Ok (first_line_title lines, text_preview lines, "")
        end
    | Raise e => Ok (None, "", error_note (path_name filepath) e)
    end.
Proof.
  intros E. unfold get_file_title_and_content, try_body. rewrite E.
  cbn [String.eqb Ascii.eqb Bool.eqb]; cbv iota.
  destruct (read_text f) as [content|e]; [|reflexivity].
  destruct (readlines content); reflexivity.
Qed.

Lemma get_docx (filepath : string) (f : file_view) :
  lower (suffix filepath) = ".docx" ->
  get_file_title_and_content true filepath f
  = match open_docx f with
    | Ok paragraphs =>
        Ok (docx_title paragraphs, docx_preview paragraphs,
            docx_notes (docx_title paragraphs) (docx_preview paragraphs))
    | Raise e => Ok (None, "", error_note (path_name filepath) e)
    end.
Proof.
  intros E. unfold get_file_title_and_content, try_body. rewrite E.
  cbn [String.eqb Ascii.eqb Bool.eqb andb]; cbv iota.
  destruct (open_docx f); reflexivity.
Qed.

Lemma get_other (Document : bool) (filepath : string) (f : file_view) :
  lower (suffix filepath) <> ".txt" ->
  String.eqb (lower (suffix filepath)) ".docx" && Document = false ->
  get_file_title_and_content Document filepath f
  = let extension := lower (suffix filepath) in
    Ok (if mem extension not_implemented_exts then
          (None, "", not_implemented_note extension)
        else if mem extension binary_exts then
          (None, "", binary_note extension)
        else fallback_branch extension f).
Proof.
  intros Et Ed. unfold get_file_title_and_content, try_body.
  apply String.eqb_neq in Et. rewrite Et, Ed. cbv zeta.
  destruct (mem _ not_implemented_exts); [reflexivity|].
  destruct (mem _ binary_exts); reflexivity.
Qed.

Lemma dispatch_cases (Document : bool) (extension : string) :
  extension = ".txt"
  \/ (extension = ".docx" /\ Document = true)
  \/ (extension <> ".txt"
      /\ String.eqb extension ".docx" && Document = false).
Proof.
  destruct (String.eqb_spec extension ".txt") as [|Et]; [now left|].
  right. destruct (String.eqb_spec extension ".docx") as [|Ed];
    destruct Document; auto.
Qed.

Lemma other_title (Document : bool) (filepath : string) (f : file_view)
    (r : extracted) :
  lower (suffix filepath) <> ".txt" ->
  String.eqb (lower (suffix filepath)) ".docx" && Document = false ->
  get_file_title_and_content Document filepath f = Ok r ->
  title_of r = None.
Proof.
  intros Et Ed. rewrite (get_other _ _ _ Et Ed). cbv zeta.
  destruct (mem _ not_implemented_exts); [now intros [= <-]|].
  destruct (mem _ binary_exts); [now intros [= <-]|].
  intros [= <-]. apply fallback_branch_title.
Qed.

(** C10. Whenever the extractor returns a title, the title is at most 203
    characters long; when it comes from the first non-blank paragraph of a
    document without headings it is at most 153 characters long. *)
Theorem C10_title_length (Document : bool) (filepath : string)
    (f : file_view) (r : extracted) (t : string) :
  get_file_title_and_content Document filepath f = Ok r ->
  title_of r = Some t ->
  String.length t <= 203
  /\ (forall paragraphs,
        Document = true ->
        lower (suffix filepath) = ".docx" ->
        open_docx f = Ok paragraphs ->
        titles_found paragraphs = [] ->
        String.length t <= 153).
Proof.
  destruct (dispatch_cases Document (lower (suffix filepath)))
    as [Et | [[Ed ->] | [Et Ed]]].
  - rewrite (get_txt _ _ _ Et). intros Hg Ht.
    split; [|intros ps _ E; rewrite Et in E; discriminate].
    destruct (read_text f) as [content|e]; [|now injection Hg as <-].
    destruct (readlines content) as [|l ls] eqn:El; injection Hg as <-;
      [discriminate|].
    apply (first_line_title_length (l :: ls)). exact Ht.
  - rewrite (get_docx _ _ Ed). intros Hg Ht.
    destruct (open_docx f) as [ps|e]; [|now injection Hg as <-].
    injection Hg as <-.
    change (docx_title ps = Some t) in Ht. split.
    + now apply docx_title_length in Ht.
    + intros ps' _ _ [= <-] Hnone. unfold docx_title in Ht.
      rewrite Hnone in Ht. now apply first_para_title_length in Ht.
  - intros Hg Ht. rewrite (other_title _ _ _ _ Et Ed Hg) in Ht.
    discriminate.
Qed.

Lemma C10_title_length_witness :
  String.length "First paragraph" <= 203
  /\ (forall paragraphs,
        true = true ->
        lower (suffix "/docs/Report.DOCX") = ".docx" ->
        open_docx sample_docx = Ok paragraphs ->
        titles_found paragraphs = [] ->
        String.length "First paragraph" <= 153).
Proof.
  apply (C10_title_length true "/docs/Report.DOCX" sample_docx
           (Some "First paragraph", "  " ++ nl ++ "First paragraph", ""));
    reflexivity.
Defined.

(** ** Content extractor: failures *)

(** C5 as stated fails: a read failure on the unknown-extension path is
    caught by the inner handler, and the note does not mention an error. *)
Lemma C5_counterexample :
  read_text sample_unreadable = Raise denied
  /\ get_file_title_and_content true "/data/blob.xyz" sample_unreadable
     = Ok (None, "", unknown_binary_note ".xyz")
  /\ contains "ERROR processing file" (unknown_binary_note ".xyz") = false
  /\ unknown_binary_note ".xyz" <> spec_error_note "blob.xyz" denied.
Proof.
  repeat split; try reflexivity. discriminate.
Qed.

(** C5, amended.  The extractor always returns.  A failure of the read in
    the text branch, or of the parse in the document branch, gives the
    bracketed note "[ERROR processing file <name>: <kind> - <detail>]" with
    no title and the empty preview; a failure of the read in the
    unknown-extension branch gives the note "[Unknown file type (<ext>),
    likely binary or not text-readable]", also with no title and the empty
    preview. *)
Theorem C5_failures_become_notes (Document : bool) (filepath : string)
    (f : file_view) :
  exists r,
    get_file_title_and_content Document filepath f = Ok r
    /\ (forall e,
          lower (suffix filepath) = ".txt" -> read_text f = Raise e ->
          r = (None, "", error_note (path_name filepath) e))
    /\ (forall e,
          lower (suffix filepath) = ".docx" -> Document = true ->
          open_docx f = Raise e ->
          r = (None, "", error_note (path_name filepath) e))
    /\ (forall e,
          lower (suffix filepath) <> ".txt" ->
          text_path Document (lower (suffix filepath)) = true ->
          read_text f = Raise e ->
          r = (None, "", unknown_binary_note (lower (suffix filepath)))).
Proof.
  destruct (get_file_title_and_content Document filepath f) as [r|e] eqn:Eg;
    [|unfold get_file_title_and_content in Eg;
      destruct (try_body _ _ _); discriminate].
  exists r. split; [reflexivity|]. split; [|split].
  - intros e Et Er. rewrite (get_txt _ _ _ Et), Er in Eg. congruence.
  - intros e Ed -> Eo. rewrite (get_docx _ _ Ed), Eo in Eg. congruence.
  - intros e Et Hp Er. unfold text_path in Hp.
    apply String.eqb_neq in Et. rewrite Et in Hp. cbn [orb] in Hp.
    apply andb_prop in Hp as [Hp Hb]. apply andb_prop in Hp as [Hd Hn].
    apply negb_true_iff in Hd, Hn, Hb. apply String.eqb_neq in Et.
    rewrite (get_other _ _ _ Et Hd) in Eg. cbv zeta in Eg.
    rewrite Hn, Hb in Eg. unfold fallback_branch in Eg. rewrite Er in Eg.
    congruence.
Qed.

Lemma C5_failures_become_notes_witness :
  exists r,
    get_file_title_and_content true "/notes/todo.txt" sample_unreadable = Ok r
    /\ r = (None, "", error_note "todo.txt" denied).
Proof.
  destruct (C5_failures_become_notes true "/notes/todo.txt" sample_unreadable)
    as (r & Hr & Htxt & _).
  exists r. split; [exact Hr|]. apply Htxt; reflexivity.
Defined.

(** ** Content extractor: the document library is missing *)

(** C6 as stated fails: without the document library a .docx file is read
    as text by the unknown-extension branch, and the note is not the "not
    yet implemented" note. *)
Lemma C6_counterexample :
  lower (suffix "/docs/Report.DOCX") = ".docx"
  /\ get_file_title_and_content false "/docs/Report.DOCX" sample_docx
     = Ok (None, "PK", attempted_note ".docx")
  /\ attempted_note ".docx" <> not_implemented_note ".docx".
Proof.
  repeat split; try reflexivity. discriminate.
Qed.

(** C6, amended.  When the document library is unavailable, a .docx file
    gets the treatment of the unknown-extension fallback: the result is
    that of the fallback branch, it has no title, its note is one of the
    three unknown-type notes, and it depends on the text read from the file
    only, never on the parsed document.  The availability is a flag fixed
    outside the extractor. *)
Theorem C6_docx_without_library (filepath : string) (f : file_view) :
  lower (suffix filepath) = ".docx" ->
  get_file_title_and_content false filepath f
  = Ok (fallback_branch ".docx" f)
  /\ title_of (fallback_branch ".docx" f) = None
  /\ (notes_of (fallback_branch ".docx" f) = attempted_note ".docx"
      \/ notes_of (fallback_branch ".docx" f) = unknown_empty_note ".docx"
      \/ notes_of (fallback_branch ".docx" f) = unknown_binary_note ".docx")
  /\ (forall f',
        read_text f' = read_text f ->
        get_file_title_and_content false filepath f'
        = get_file_title_and_content false filepath f).
Proof.
  intros Ed.
  assert (G : forall g, get_file_title_and_content false filepath g
                        = Ok (fallback_branch ".docx" g)).
  { intros g. rewrite get_other; rewrite Ed; try reflexivity. discriminate. }
  split; [apply G|]. split; [apply fallback_branch_title|]. split.
  - unfold fallback_branch. destruct (read_text f) as [content|e]; [|auto].
    destruct (readlines content) as [|l ls]; [auto|].
    cbv zeta. destruct (nonempty _); auto.
  - intros f' Hr. rewrite !G. unfold fallback_branch. now rewrite Hr.
Qed.

Lemma C6_docx_without_library_witness :
  get_file_title_and_content false "/docs/Report.DOCX" sample_docx
  = Ok (fallback_branch ".docx" sample_docx).
Proof.
  exact (proj1 (C6_docx_without_library "/docs/Report.DOCX" sample_docx
                  eq_refl)).
Defined.

(** ** Content extractor: line counts *)

Lemma readlines_firstn_app (s t : string) (n : nat) :
  n < List.length (readlines s) ->
  readlines (String.concat "" (firstn n (readlines s)) ++ t)
  = (firstn n (readlines s) ++ readlines t)%list.
Proof.
  revert n. induction s as [|c s IH]; intros n Hn; [simpl in Hn; lia|].
  destruct n as [|m]; [reflexivity|].
  cbn [readlines] in *. destruct (Ascii.eqb_spec c LF) as [->|Hc].
  - cbn [List.length firstn] in *. rewrite concat_nosep_cons.
    cbn [nl append readlines Ascii.eqb Bool.eqb LF]. cbv iota.
    rewrite IH by lia. reflexivity.
  - destruct (readlines s) as [|l ls] eqn:El.
    + simpl in Hn. lia.
    + cbn [List.length firstn] in *. rewrite concat_nosep_cons.
      cbn [append readlines].
      destruct (Ascii.eqb_spec c LF) as [|_]; [contradiction|].
      specialize (IH (S m) Hn). cbn [firstn] in IH.
      rewrite concat_nosep_cons in IH. rewrite IH.
      reflexivity.
Qed.

Lemma splitlines_line (x u : string) :
  no_break x -> splitlines (x ++ nl ++ u) = x :: splitlines u.
Proof.
  unfold no_break. induction x as [|c x IH]; cbn; intros H.
  - destruct u; reflexivity.
  - apply andb_prop in H as [Hc Hx]. apply negb_true_iff in Hc.
    rewrite Hc. cbn in IH. now rewrite IH.
Qed.

Lemma splitlines_join (ls : list string) (u : string) :
  ls <> [] -> Forall no_break ls ->
  splitlines (join nl ls ++ nl ++ u) = (ls ++ splitlines u)%list.
Proof.
  induction ls as [|x ls IH]; [congruence|]. intros _ H.
  inversion H as [|? ? Hx Hls]; subst.
  destruct ls as [|y ls].
  - cbn [join app]. now apply splitlines_line.
  - change (join nl (x :: y :: ls)) with (x ++ nl ++ join nl (y :: ls)).
    rewrite !app_assoc_str, splitlines_line by assumption.
    rewrite IH by (auto; discriminate). reflexivity.
Qed.

Lemma splitlines_no_break_bounded (n : nat) (s : string) :
  String.length s <= n -> Forall no_break (splitlines s).
Proof.
  revert s. induction n as [|n IH]; intros [|c s] Hs; cbn in *;
    try constructor; try lia.
  destruct (is_linebreak c) eqn:Hc.
  - destruct s as [|d s'].
    + repeat constructor.
    + destruct (Ascii.eqb c CR && Ascii.eqb d LF); constructor;
        try reflexivity; apply IH; cbn in *; lia.
  - assert (Hr : Forall no_break (splitlines s)) by (apply IH; lia).
    destruct (splitlines s) as [|l ls].
    + repeat constructor. unfold no_break. cbn. now rewrite Hc.
    + inversion Hr; subst. constructor; [|assumption].
      unfold no_break in *. cbn. now rewrite Hc.
Qed.

Lemma splitlines_no_break (s : string) : Forall no_break (splitlines s).
Proof. apply (splitlines_no_break_bounded (String.length s)). lia. Qed.

Lemma Forall_firstn {A : Type} (P : A -> Prop) (n : nat) (l : list A) :
  Forall P l -> Forall P (firstn n l).
Proof.
  intros H. revert n. induction H; intros [|n]; cbn; constructor; auto.
Qed.

Lemma text_preview_lines (content : string) :
  String.length content <= MAX_CONTENT_PREVIEW_CHARS ->
  List.length (readlines (text_preview (readlines content)))
  <= MAX_CONTENT_PREVIEW_LINES + 2.
Proof.
  intros Hc. unfold text_preview. rewrite concat_readlines.
  destruct (Nat.ltb_spec MAX_CONTENT_PREVIEW_CHARS (String.length content));
    [lia|].
  destruct (Nat.ltb_spec MAX_CONTENT_PREVIEW_LINES
              (List.length (readlines content))) as [Hl|Hl].
  - rewrite readlines_firstn_app by exact Hl.
    rewrite List.length_app, List.length_firstn.
    change (List.length (readlines truncation_marker)) with 2. lia.
  - lia.
Qed.

Lemma docx_preview_lines (paragraphs : list paragraph) :
  String.length (join nl (map text paragraphs)) <= MAX_CONTENT_PREVIEW_CHARS ->
  List.length (splitlines (docx_preview paragraphs))
  <= MAX_CONTENT_PREVIEW_LINES + 1.
Proof.
  intros Hc. unfold docx_preview. cbv zeta.
  set (full_text := join nl (map text paragraphs)) in *.
  destruct (Nat.ltb_spec MAX_CONTENT_PREVIEW_CHARS (String.length full_text));
    [lia|].
  destruct (Nat.ltb_spec MAX_CONTENT_PREVIEW_LINES
              (List.length (splitlines full_text))) as [Hl|Hl]; [|lia].
  unfold truncation_marker. rewrite splitlines_join.
  - rewrite List.length_app, List.length_firstn.
    change (List.length (splitlines "... (content truncated)")) with 1. lia.
  - intros E. apply (f_equal (@List.length string)) in E.
    rewrite List.length_firstn in E. cbn [List.length] in E.
    unfold MAX_CONTENT_PREVIEW_LINES in *. lia.
  - apply Forall_firstn, splitlines_no_break.
Qed.

(** C4 as stated fails: 51 short lines stay under the character cap, the
    line cap truncates, and the preview is the first 50 lines followed by
    the two lines of the truncation marker. *)
Lemma C4_counterexample :
  exists content r,
    read_text sample_long = Ok content
    /\ String.length content <= MAX_CONTENT_PREVIEW_CHARS
    /\ get_file_title_and_content true "/notes/long.txt" sample_long = Ok r
    /\ List.length (readlines (preview_of r)) = 52
    /\ MAX_CONTENT_PREVIEW_LINES < List.length (readlines (preview_of r)).
Proof.
  eexists. eexists. split; [reflexivity|]. split; [vm_compute; lia|].
  split; [reflexivity|]. split; [vm_compute; reflexivity|].
  vm_compute. lia.
Qed.

(** C4, amended.  When the character cap is not exceeded, the preview has
    at most the line cap plus the lines of the truncation marker: at most
    MAX_CONTENT_PREVIEW_LINES + 2 lines on the text and fallback paths
    (lines as [readlines] counts them) and at most
    MAX_CONTENT_PREVIEW_LINES + 1 lines on the document path (lines as
    [splitlines] counts them); on every other path the preview is empty. *)
Theorem C4_line_count_with_marker (Document : bool) (filepath : string)
    (f : file_view) (r : extracted) :
  get_file_title_and_content Document filepath f = Ok r ->
  (forall content,
     text_path Document (lower (suffix filepath)) = true ->
     read_text f = Ok content ->
     String.length content <= MAX_CONTENT_PREVIEW_CHARS ->
     List.length (readlines (preview_of r)) <= MAX_CONTENT_PREVIEW_LINES + 2)
  /\ (forall paragraphs,
        Document = true ->
        lower (suffix filepath) = ".docx" ->
        open_docx f = Ok paragraphs ->
        String.length (join nl (map text paragraphs))
        <= MAX_CONTENT_PREVIEW_CHARS ->
        List.length (splitlines (preview_of r))
        <= MAX_CONTENT_PREVIEW_LINES + 1)
  /\ (text_path Document (lower (suffix filepath)) = false ->
      String.eqb (lower (suffix filepath)) ".docx" && Document = false ->
      preview_of r = "").
Proof.
  intros Hg. split; [|split].
  - intros content Hp Hr Hc.
    destruct (text_path_result Document filepath f content Hp Hr)
      as (title & notes & E).
    rewrite E in Hg. injection Hg as <-. unfold preview_of; cbn [fst snd].
    destruct (readlines content) eqn:El; [cbn; lia|].
    rewrite <- El. now apply text_preview_lines.
  - intros ps -> Ed Eo Hc. rewrite (get_docx _ _ Ed), Eo in Hg.
    injection Hg as <-. now apply docx_preview_lines.
  - intros Hp Hd. unfold text_path in Hp.
    apply orb_false_iff in Hp as [Et Hp]. apply String.eqb_neq in Et.
    rewrite (get_other _ _ _ Et Hd) in Hg. cbv zeta in Hg.
    rewrite Hd in Hp. cbn [negb andb] in Hp.
    destruct (mem _ not_implemented_exts); [now injection Hg as <-|].
    destruct (mem _ binary_exts); [now injection Hg as <-|].
    discriminate.
Qed.

Lemma C4_line_count_with_marker_witness :
  List.length
    (readlines (String.concat "" (repeat ("a" ++ nl) 50) ++ truncation_marker))
  <= MAX_CONTENT_PREVIEW_LINES + 2.
Proof.
  refine (proj1 (C4_line_count_with_marker true "/notes/long.txt" sample_long
                   (Some "a",
                    String.concat "" (repeat ("a" ++ nl) 50)
                      ++ truncation_marker, "") _)
            (String.concat "" (repeat ("a" ++ nl) 51)) _ _ _).
  - vm_compute. reflexivity.
  - reflexivity.
  - reflexivity.
  - vm_compute. lia.
Defined.

(** ** Sorting *)

Section SortedFacts.
Context {A : Type} (key : A -> string).

Lemma insert_perm (x : A) (l : list A) :
  Permutation (insert key x l) (x :: l).
Proof.
  induction l as [|y l IH]; cbn; [reflexivity|].
  destruct (String.ltb (key y) (key x)); [|reflexivity].
  rewrite IH. apply perm_swap.
Qed.

Lemma sorted_perm (l : list A) : Permutation (sorted key l) l.
Proof.
  induction l as [|x l IH]; cbn; [reflexivity|].
  unfold sorted in IH. rewrite insert_perm. now constructor.
Qed.

Lemma sorted_in (l : list A) (x : A) : In x (sorted key l) <-> In x l.
Proof.
  split; apply Permutation_in;
    [apply sorted_perm | symmetry; apply sorted_perm].
Qed.
End SortedFacts.

Lemma ltb_leb (a b : string) : String.ltb a b = true -> str_le a b.
Proof.
  unfold String.ltb, str_le, String.leb. now destruct (String.compare a b).
Qed.

Lemma not_ltb_leb (a b : string) : String.ltb a b = false -> str_le b a.
Proof.
  unfold String.ltb, str_le, String.leb. rewrite (String.compare_antisym b a).
  now destruct (String.compare a b).
Qed.

Lemma ascii_compare_trans (a b c : ascii) :
  Ascii.compare a b = Lt -> Ascii.compare b c = Lt -> Ascii.compare a c = Lt.
Proof.
  unfold Ascii.compare. rewrite !BinNat.N.compare_lt_iff.
  apply BinNat.N.lt_trans.
Qed.

Lemma compare_lt_trans (a b c : string) :
  String.compare a b = Lt -> String.compare b c = Lt ->
  String.compare a c = Lt.
Proof.
  revert b c. induction a as [|x a IH]; intros [|y b] [|z c]; cbn;
    try discriminate; auto.
  destruct (Ascii.compare x y) eqn:Exy; try discriminate.
  - apply Ascii.compare_eq_iff in Exy as ->.
    destruct (Ascii.compare y z); try discriminate; auto. apply IH.
  - intros _. destruct (Ascii.compare y z) eqn:Eyz; try discriminate.
    + apply Ascii.compare_eq_iff in Eyz as <-. now rewrite Exy.
    + now rewrite (ascii_compare_trans _ _ _ Exy Eyz).
Qed.

Lemma str_le_trans (a b c : string) : str_le a b -> str_le b c -> str_le a c.
Proof.
  unfold str_le, String.leb. intros Hab Hbc.
  destruct (String.compare a b) eqn:Eab; try discriminate.
  - apply String.compare_eq_iff in Eab as ->. exact Hbc.
  - destruct (String.compare b c) eqn:Ebc; try discriminate.
    + apply String.compare_eq_iff in Ebc as <-. now rewrite Eab.
    + now rewrite (compare_lt_trans _ _ _ Eab Ebc).
Qed.

Section SortedOrder.
Context {A : Type} (key : A -> string).

Lemma insert_sorted (x : A) (l : list A) :
  StronglySorted (key_le key) l ->
  StronglySorted (key_le key) (insert key x l).
Proof.
  induction 1 as [|y l Hl IH Hy]; cbn; [repeat constructor|].
  destruct (String.ltb (key y) (key x)) eqn:E.
  - constructor; [exact IH|].
    apply (Permutation_Forall (Permutation_sym (insert_perm key x l))).
    constructor; [now apply ltb_leb | exact Hy].
  - constructor; [now constructor|].
    apply not_ltb_leb in E. constructor; [exact E|].
    eapply Forall_impl; [|exact Hy].
    intros z Hz. eapply str_le_trans; eassumption.
Qed.

Lemma sorted_sorted (l : list A) :
  StronglySorted (key_le key) (sorted key l).
Proof.
  induction l as [|x l IH]; cbn; [constructor|]. now apply insert_sorted.
Qed.

Lemma insert_map {B : Type} (g : B -> A) (x : B) (l : list B) :
  insert key (g x) (map g l) = map g (insert (fun b => key (g b)) x l).
Proof.
  induction l as [|y l IH]; cbn; [reflexivity|].
  destruct (String.ltb (key (g y)) (key (g x))); cbn; now rewrite ?IH.
Qed.

Lemma sorted_map {B : Type} (g : B -> A) (l : list B) :
  sorted key (map g l) = map g (sorted (fun b => key (g b)) l).
Proof.
  induction l as [|x l IH]; cbn; [reflexivity|].
  unfold sorted in IH. now rewrite IH, insert_map.
Qed.
End SortedOrder.

(** Two sorted lists with the same elements are the same list. *)
Lemma sorted_unique (l l' : list string) :
  StronglySorted str_le l -> StronglySorted str_le l' ->
  Permutation l l' -> l = l'.
Proof.
  intros Hl. revert l'. induction Hl as [|x l Hl IH Hx]; intros l' Hl' Hp.
  - now apply Permutation_nil in Hp.
  - destruct Hl' as [|y l' Hl' Hy];
      [apply Permutation_sym, Permutation_nil in Hp; discriminate|].
    assert (x = y) as <-.
    { assert (Hxin : In x (y :: l'))
        by (eapply Permutation_in; [exact Hp|now left]).
      assert (Hyin : In y (x :: l))
        by (eapply Permutation_in; [symmetry; exact Hp|now left]).
      destruct Hxin as [->|Hxin]; [reflexivity|].
      destruct Hyin as [->|Hyin]; [reflexivity|].
      rewrite Forall_forall in Hx, Hy.
      apply String.leb_antisym; [apply Hx, Hyin | apply Hy, Hxin]. }
    f_equal. apply IH; [exact Hl'|]. now apply Permutation_cons_inv in Hp.
Qed.

(** ** Tree renderer *)

Lemma filter_map_comm {A B : Type} (g : A -> B) (p : B -> bool)
    (l : list A) :
  filter p (map g l) = map g (filter (fun a => p (g a)) l).
Proof.
  induction l as [|x l IH]; cbn; [reflexivity|].
  destruct (p (g x)); cbn; now rewrite IH.
Qed.

Lemma write_items_render (prefix : string) (n i : nat) (items : list node) :
  write_items prefix n i (map (fun c => (c, _tree_generator c)) items)
  = render_items prefix n i items.
Proof.
  revert i. induction items as [|item rest IH]; intros i; cbn;
    [reflexivity|]. now rewrite IH.
Qed.

(** The recursive equation of [_tree_generator], as the source reads. *)
Lemma _tree_generator_eq (n : string) (entries : list node)
    (prefix : string) :
  _tree_generator (Dir n (Some entries)) prefix
  = render_items prefix (List.length (items_of entries)) 0 (items_of entries).
Proof.
  cbn [_tree_generator].
  rewrite !(filter_map_comm (fun c => (c, _tree_generator c))).
  cbn [fst]. rewrite <- map_app.
  rewrite (sorted_map (fun p : node * (string -> list string) => name (fst p))
             (fun c => (c, _tree_generator c))).
  cbn [fst]. rewrite length_map. apply write_items_render.
Qed.

Lemma render_items_app (prefix : string) (n i : nat) (xs ys : list node) :
  render_items prefix n i (xs ++ ys)
  = (render_items prefix n i xs
     ++ render_items prefix n (i + List.length xs) ys)%list.
Proof.
  revert i. induction xs as [|x xs IH]; intros i; cbn [render_items app].
  - cbn. now rewrite Nat.add_0_r.
  - rewrite IH, <- app_assoc. cbn [List.length].
    now rewrite Nat.add_succ_r.
Qed.

(** C1 as stated fails: a directory that holds the subdirectory b and the
    file a.txt is rendered with a.txt first. *)
Lemma C1_counterexample :
  items_of mixed_listing = [File "a.txt"; Dir "b" (Some [])]
  /\ spec_children_order mixed_listing = [Dir "b" (Some []); File "a.txt"]
  /\ items_of mixed_listing <> spec_children_order mixed_listing
  /\ _tree_generator (Dir "root" (Some mixed_listing)) ""
     = ["├── a.txt" ++ nl; "└── b/" ++ nl].
Proof.
  repeat split; try reflexivity. discriminate.
Qed.

(** C1, amended.  For every directory rendered, the children are the
    non-excluded subdirectories and the files of its listing merged into
    one list sorted by name, and they are written in that order. *)
Theorem C1_children_merged_sort (n : string) (entries : list node)
    (prefix : string) :
  _tree_generator (Dir n (Some entries)) prefix
  = render_items prefix (List.length (items_of entries)) 0 (items_of entries)
  /\ Permutation (items_of entries) (kept_dirs entries ++ plain_files entries)
  /\ StronglySorted name_le (items_of entries).
Proof.
  split; [apply _tree_generator_eq|]. split.
  - apply sorted_perm.
  - apply sorted_sorted.
Qed.

(** C7. A directory whose listing raises a permission error is rendered as
    exactly one line under it, the denied-access line at the prefix of its
    children; and inside its parent the items before it and after it are
    rendered as they are without it. *)
Theorem C7_permission_denied (n : string) (prefix : string) :
  _tree_generator (Dir n None) prefix = [denied_line prefix]
  /\ (forall entries before after dname,
        items_of entries = (before ++ Dir dname None :: after)%list ->
        let len := List.length (items_of entries) in
        let i := List.length before in
        _tree_generator (Dir n (Some entries)) prefix
        = (render_items prefix len 0 before
           ++ [(prefix ++ connector_at len i ++ dname ++ "/" ++ nl)%string;
               denied_line (prefix ++ indent_at len i)%string]
           ++ render_items prefix len (S i) after)%list).
Proof.
  split; [reflexivity|].
  intros entries before after dname E len i. subst len i.
  rewrite _tree_generator_eq, E, render_items_app. reflexivity.
Qed.

Lemma C7_permission_denied_witness :
  _tree_generator sample_tree ""
  = ([ ("├── .git" ++ nl)%string; ("├── README" ++ nl)%string ]
     ++ [ ("├── locked/" ++ nl)%string; denied_line "│   " ]
     ++ [ ("└── src/" ++ nl)%string; ("    ├── main.py" ++ nl)%string;
          ("    └── temp" ++ nl)%string ])%list.
Proof.
  exact (proj2 (C7_permission_denied "root" "")
           sample_listing [File ".git"; File "README"] [sample_src] "locked"
           eq_refl).
Defined.

Lemma render_items_file (prefix : string) (n i : nat) (items : list node)
    (fname : string) :
  In (File fname) items ->
  exists c, (c = branch \/ c = last_branch)
            /\ In (prefix ++ c ++ fname ++ nl) (render_items prefix n i items).
Proof.
  revert i. induction items as [|item rest IH]; intros i Hin;
    [contradiction|]. destruct Hin as [->|Hin].
  - exists (connector_at n i). split.
    + unfold connector_at. destruct (i =? n - 1)%nat; auto.
    + cbn. now left.
  - destruct (IH (S i) Hin) as (c & Hc & Hl). exists c. split; [exact Hc|].
    cbn [render_items]. apply in_or_app. now right.
Qed.

Lemma render_items_dir (prefix : string) (n i : nat) (items : list node)
    (item : node) :
  In item items -> is_dir item = true ->
  exists prefix',
    forall line, In line (_tree_generator item prefix') ->
                 In line (render_items prefix n i items).
Proof.
  revert i. induction items as [|x rest IH]; intros i Hin Hd;
    [contradiction|]. destruct Hin as [->|Hin].
  - exists (prefix ++ indent_at n i). intros line Hl.
    cbn [render_items]. rewrite Hd. apply in_or_app. left. now right.
  - destruct (IH (S i) Hin Hd) as (prefix' & H). exists prefix'.
    intros line Hl. cbn [render_items]. apply in_or_app. right. now apply H.
Qed.

Lemma file_at_is_dir (c : node) (ds : list string) (fname : string) :
  file_at c ds fname -> is_dir c = true.
Proof. now destruct 1. Qed.

(** Every file reached through directories that are not excluded has its
    line in the rendered tree, whatever its own name is. *)
Lemma rendered_file (d : node) (ds : list string) (fname : string) :
  file_at d ds fname ->
  Forall (fun x => excluded x = false) ds ->
  forall prefix,
  exists pre c, (c = branch \/ c = last_branch)
                /\ In (pre ++ c ++ fname ++ nl) (_tree_generator d prefix).
Proof.
  induction 1 as [n entries fname Hin | n entries c ds fname Hin Hc IH];
    intros Hex prefix; rewrite _tree_generator_eq.
  - destruct (render_items_file prefix (List.length (items_of entries)) 0
                (items_of entries) fname) as (c & Hc & Hl).
    + apply sorted_in, in_or_app. right. now apply filter_In.
    + now exists prefix, c.
  - inversion Hex as [|? ? Hd Hds]; subst.
    destruct (render_items_dir prefix (List.length (items_of entries)) 0
                (items_of entries) c) as (prefix' & Hsub).
    + apply sorted_in, in_or_app. left. apply filter_In. split; [exact Hin|].
      rewrite (file_at_is_dir _ _ _ Hc). unfold excluded in Hd.
      now rewrite Hd.
    + now apply (file_at_is_dir _ _ _ Hc).
    + destruct (IH Hds prefix') as (pre & k & Hk & Hl).
      exists pre, k. split; [exact Hk|]. now apply Hsub.
Qed.

(** ** File collector *)

Lemma flat_map_flat_map {A B C : Type} (f : B -> list C) (g : A -> list B)
    (l : list A) :
  flat_map f (flat_map g l) = flat_map (fun x => flat_map f (g x)) l.
Proof.
  induction l as [|x l IH]; cbn; [reflexivity|].
  now rewrite flat_map_app, IH.
Qed.

Lemma find_map {A B : Type} (g : A -> B) (p : B -> bool) (l : list A) :
  find p (map g l) = option_map g (find (fun a => p (g a)) l).
Proof.
  induction l as [|x l IH]; cbn; [reflexivity|]. now destruct (p (g x)).
Qed.

(** The paths of one directory: its files, then the walk of each directory
    name that pruning leaves. *)
Lemma walked_paths_eq (top n : string) (entries : list node) :
  walked_paths top (Dir n (Some entries))
  = (map (path_join top) (map name (filter is_file entries))
     ++ flat_map
          (fun dirname =>
             match find (fun c => is_dir c && String.eqb (name c) dirname)
                     entries with
             | Some c => walked_paths (path_join top dirname) c
             | None => []
             end)
          (prune_excluded (map name (filter is_dir entries))))%list.
Proof.
  unfold walked_paths. cbn [os_walk flat_map]. f_equal.
  rewrite flat_map_flat_map. apply flat_map_ext. intros dirname.
  rewrite (find_map (fun c => (c, fun t => os_walk prune_excluded t c))).
  cbn [fst]. now destruct (find _ entries).
Qed.

Lemma mem_In (x : string) (l : list string) : mem x l = true <-> In x l.
Proof.
  unfold mem. rewrite existsb_exists. split.
  - intros (y & Hy & E). apply String.eqb_eq in E. now subst.
  - intros H. exists x. split; [exact H | apply String.eqb_refl].
Qed.

Lemma find_distinct (entries : list node) (c : node) :
  distinct (map name entries) = true -> In c entries -> is_dir c = true ->
  find (fun x => is_dir x && String.eqb (name x) (name c)) entries = Some c.
Proof.
  induction entries as [|x r IH]; cbn; intros Hd Hin Hc; [contradiction|].
  apply andb_prop in Hd as [Hx Hr]. destruct Hin as [->|Hin].
  - now rewrite Hc, String.eqb_refl.
  - destruct (String.eqb_spec (name x) (name c)) as [E|_].
    + apply negb_true_iff in Hx. rewrite E in Hx.
      assert (mem (name c) (map name r) = true)
        by (apply mem_In, in_map, Hin).
      congruence.
    + rewrite andb_false_r. now apply IH.
Qed.

Lemma filter_filter_and {A : Type} (p q : A -> bool) (l : list A) :
  filter p (filter q l) = filter (fun a => q a && p a) l.
Proof.
  induction l as [|x l IH]; cbn; [reflexivity|].
  destruct (q x); cbn; [destruct (p x)|]; now rewrite IH.
Qed.

Lemma flat_map_ext_in {A B : Type} (f g : A -> list B) (l : list A) :
  (forall a, In a l -> f a = g a) -> flat_map f l = flat_map g l.
Proof.
  induction l as [|x l IH]; cbn; intros H; [reflexivity|].
  rewrite (H x) by now left. now rewrite IH by auto.
Qed.

(** In a well-formed directory the walk descends exactly into the
    subdirectories that are not excluded. *)
Lemma walked_paths_wf (top n : string) (entries : list node) :
  distinct (map name entries) = true ->
  walked_paths top (Dir n (Some entries))
  = (map (fun c => path_join top (name c)) (filter is_file entries)
     ++ flat_map (fun c => walked_paths (path_join top (name c)) c)
          (filter (fun c => is_dir c && negb (excluded (name c))) entries))%list.
Proof.
  intros Hd. rewrite walked_paths_eq, map_map. f_equal.
  unfold prune_excluded. rewrite filter_map_comm, flat_map_concat_map.
  rewrite map_map, <- flat_map_concat_map.
  rewrite filter_filter_and.
  apply flat_map_ext_in. intros c Hc. apply filter_In in Hc as [Hin Hc].
  apply andb_prop in Hc as [Hc _].
  now rewrite (find_distinct entries c Hd Hin Hc).
Qed.

Lemma wf_dir_inv (n : string) (entries : list node) :
  wf_node (Dir n (Some entries)) = true ->
  distinct (map name entries) = true
  /\ (forall c, In c entries -> valid_name (name c) = true)
  /\ (forall c, In c entries -> wf_node c = true).
Proof.
  cbn [wf_node]. intros H. apply andb_prop in H as [H Hall].
  apply andb_prop in H as [Hd Hv]. rewrite forallb_forall in Hall, Hv.
  repeat split; auto. intros c Hc. now apply Hv, in_map.
Qed.

Lemma path_of_cons (top d : string) (ds : list string) (fname : string) :
  path_of top (d :: ds) fname = path_of (path_join top d) ds fname.
Proof. reflexivity. Qed.

(** The walk collects exactly the files reached through directories that
    are not excluded. *)
Lemma walked_paths_iff (d : node) :
  wf_node d = true ->
  forall top p,
    In p (walked_paths top d)
    <-> exists ds fname,
          file_at d ds fname
          /\ Forall (fun x => excluded x = false) ds
          /\ p = path_of top ds fname.
Proof.
  induction d as [n | n | n entries IH] using node_induction; intros Hwf top p.
  - split; [intros [] | intros (ds & fname & H & _); inversion H].
  - split; [intros [] | intros (ds & fname & H & _); inversion H].
  - apply wf_dir_inv in Hwf as (Hd & _ & Hall). rewrite Forall_forall in IH.
    rewrite (walked_paths_wf top n entries Hd), in_app_iff, in_map_iff,
      in_flat_map.
    split.
    + intros [(c & <- & Hc) | (c & Hc & Hp)].
      * apply filter_In in Hc as [Hin Hf]. destruct c as [fname|]; [|easy].
        exists [], fname. repeat split; [now constructor | constructor].
      * apply filter_In in Hc as [Hin Hk]. apply andb_prop in Hk as [_ Hk].
        apply negb_true_iff in Hk.
        apply (IH c Hin (Hall c Hin)) in Hp as (ds & fname & Hf & Hex & ->).
        exists (name c :: ds), fname.
        repeat split; [now apply file_below with (c := c) | now constructor].
    + intros (ds & fname & Hf & Hex & ->). inversion Hf; subst.
      * left. exists (File fname). split; [reflexivity|].
        now apply filter_In.
      * right. exists c. inversion Hex; subst. split.
        -- apply filter_In. split; [assumption|].
           rewrite (file_at_is_dir c ds0 fname) by assumption.
           now apply andb_true_iff, conj, negb_true_iff.
        -- apply (IH c); auto. exists ds0, fname. now rewrite path_of_cons.
Qed.

Lemma same_tree_name (c c' : node) : same_tree c c' -> name c = name c'.
Proof. now destruct 1. Qed.

Lemma same_tree_is_dir (c c' : node) :
  same_tree c c' -> is_dir c = is_dir c'.
Proof. now destruct 1. Qed.

Lemma same_tree_is_file (c c' : node) :
  same_tree c c' -> is_file c = is_file c'.
Proof. now destruct 1. Qed.

Lemma Permutation_filter {A : Type} (p : A -> bool) (l l' : list A) :
  Permutation l l' -> Permutation (filter p l) (filter p l').
Proof.
  induction 1 as [|x l l' H IH|x y l|l l' l'' H IH H' IH']; cbn.
  - constructor.
  - destruct (p x); [now constructor | exact IH].
  - destruct (p x), (p y); try reflexivity. apply perm_swap.
  - now transitivity (filter p l').
Qed.

(** The listing order changes the walk by a permutation only. *)
Lemma walked_paths_same_tree (d : node) :
  forall d' top,
    wf_node d = true -> wf_node d' = true -> same_tree d d' ->
    Permutation (walked_paths top d) (walked_paths top d').
Proof.
  induction d as [n | n | n entries IH] using node_induction;
    intros d' top Hwf Hwf' Hs; inversion Hs as [| |? ? mid entries' Hp Hf];
    subst; try reflexivity.
  apply wf_dir_inv in Hwf as (Hd & _ & Hall).
  apply wf_dir_inv in Hwf' as (Hd' & _ & Hall').
  rewrite (walked_paths_wf top n entries Hd),
    (walked_paths_wf top n entries' Hd').
  assert (IHmid : Forall (fun c => forall d' top, wf_node c = true ->
                    wf_node d' = true -> same_tree c d' ->
                    Permutation (walked_paths top c) (walked_paths top d'))
                    mid)
    by (eapply Permutation_Forall; eassumption).
  assert (Hallmid : forall c, In c mid -> wf_node c = true)
    by (intros c Hc; apply Hall; eapply Permutation_in;
        [symmetry; exact Hp | exact Hc]).
  apply Permutation_app.
  - transitivity (map (fun c => path_join top (name c)) (filter is_file mid)).
    + now apply Permutation_map, Permutation_filter.
    + clear - Hf.
      induction Hf as [|c c' l l' Hc Hl IHl]; cbn [filter map flat_map];
        [reflexivity|].
      rewrite <- (same_tree_is_file _ _ Hc). destruct (is_file c); [|exact IHl].
      cbn [map]. rewrite (same_tree_name _ _ Hc). now constructor.
  - transitivity
      (flat_map (fun c => walked_paths (path_join top (name c)) c)
         (filter (fun c => is_dir c && negb (excluded (name c))) mid)).
    + now apply Permutation_flat_map, Permutation_filter.
    + clear - Hf IHmid Hallmid Hall'.
      induction Hf as [|c c' l l' Hc Hl IHl]; cbn [filter map flat_map];
        [reflexivity|].
      inversion IHmid as [|? ? IHc IHl']; subst.
      rewrite <- (same_tree_is_dir _ _ Hc), <- (same_tree_name _ _ Hc).
      assert (Permutation
                (flat_map (fun c => walked_paths (path_join top (name c)) c)
                   (filter (fun c => is_dir c && negb (excluded (name c))) l))
                (flat_map (fun c => walked_paths (path_join top (name c)) c)
                   (filter (fun c => is_dir c && negb (excluded (name c))) l')))
        as Hrest.
      { apply IHl;
          [intros x Hx; apply Hall'; now right
          | exact IHl'
          | intros x Hx; apply Hallmid; now right]. }
      destruct (is_dir c && negb (excluded (name c))); [|exact Hrest].
      cbn [flat_map]. apply Permutation_app; [|exact Hrest].
      rewrite <- (same_tree_name _ _ Hc).
      apply IHc; [apply Hallmid | apply Hall' | exact Hc]; now left.
Qed.

(** *** No path is collected twice *)

Lemma path_join_prefix (a b : string) : path_join a b = sep_prefix a ++ b.
Proof.
  unfold path_join, sep_prefix. destruct (endswith_sep a); [reflexivity|].
  now rewrite app_assoc_str.
Qed.

Lemma endswith_sep_valid (n : string) :
  valid_name n = true -> endswith_sep n = false.
Proof.
  unfold valid_name. intros H. apply andb_prop in H as [Hn Hs].
  induction n as [|c n IH]; [discriminate|].
  cbn [no_slash] in Hs. apply andb_prop in Hs as [Hc Hs].
  apply negb_true_iff in Hc. destruct n as [|d n]; [exact Hc|].
  apply IH; [reflexivity | exact Hs].
Qed.

Lemma endswith_sep_app (a n : string) :
  n <> "" -> endswith_sep (a ++ n) = endswith_sep n.
Proof.
  intros Hn. induction a as [|c a IH]; [reflexivity|].
  cbn [append endswith_sep]. destruct (a ++ n) eqn:E; [|exact IH].
  destruct a; [cbn in E; congruence | discriminate].
Qed.

Lemma sep_prefix_dir (a n : string) :
  valid_name n = true -> sep_prefix (a ++ n) = a ++ n ++ "/".
Proof.
  intros Hn. unfold sep_prefix. rewrite endswith_sep_app.
  - rewrite (endswith_sep_valid n Hn). apply app_assoc_str.
  - intros ->. discriminate.
Qed.

Lemma app_inv_head_str (a b c : string) : a ++ b = a ++ c -> b = c.
Proof. induction a; cbn; intros H; [exact H | injection H; auto]. Qed.

(** The first component of a relative path determines the entry. *)
Lemma component_inj (n1 n2 t1 t2 : string) :
  no_slash n1 = true -> no_slash n2 = true -> at_sep t1 -> at_sep t2 ->
  n1 ++ t1 = n2 ++ t2 -> n1 = n2.
Proof.
  revert n2. induction n1 as [|c n1 IH]; intros [|d n2] H1 H2 Ht1 Ht2 E;
    cbn in *.
  - reflexivity.
  - subst t1. cbn in Ht1. subst d. discriminate.
  - subst t2. cbn in Ht2. subst c. discriminate.
  - injection E as -> E. apply andb_prop in H1 as [_ H1].
    apply andb_prop in H2 as [_ H2]. f_equal. eauto.
Qed.

(** Every path the walk of an entry contributes lies under that entry. *)
Lemma walked_under (d : node) :
  wf_node d = true ->
  forall top p, In p (walked_paths top d) ->
                exists rel, p = sep_prefix top ++ rel.
Proof.
  induction d as [n | n | n entries IH] using node_induction;
    intros Hwf top p; try (intros []).
  apply wf_dir_inv in Hwf as (Hd & Hv & Hall). rewrite Forall_forall in IH.
  rewrite (walked_paths_wf top n entries Hd), in_app_iff, in_map_iff,
    in_flat_map.
  intros [(c & <- & Hc) | (c & Hc & Hp)].
  - exists (name c). apply path_join_prefix.
  - apply filter_In in Hc as [Hin _].
    destruct (IH c Hin (Hall c Hin) _ _ Hp) as (rel & ->).
    rewrite path_join_prefix, sep_prefix_dir by now apply Hv.
    exists (name c ++ "/" ++ rel). now rewrite !app_assoc_str.
Qed.

Lemma walked_under_entry (top : string) (c : node) (p : string) :
  wf_node c = true -> valid_name (name c) = true ->
  In p (walked_paths (path_join top (name c)) c) ->
  exists t, at_sep t /\ p = sep_prefix top ++ name c ++ t.
Proof.
  intros Hwf Hv Hp. destruct (walked_under c Hwf _ _ Hp) as (rel & ->).
  rewrite path_join_prefix, sep_prefix_dir by exact Hv.
  exists ("/" ++ rel). split; [reflexivity|]. now rewrite !app_assoc_str.
Qed.

Lemma valid_no_slash (n : string) : valid_name n = true -> no_slash n = true.
Proof. unfold valid_name. intros H. now apply andb_prop in H. Qed.

Lemma distinct_NoDup (l : list string) : distinct l = true -> NoDup l.
Proof.
  induction l as [|x l IH]; cbn; intros H; constructor;
    apply andb_prop in H as [Hx Hl]; auto.
  apply negb_true_iff in Hx. intros Hin. apply mem_In in Hin. congruence.
Qed.

Lemma NoDup_app_intro {A : Type} (l1 l2 : list A) :
  NoDup l1 -> NoDup l2 -> (forall x, In x l1 -> In x l2 -> False) ->
  NoDup (l1 ++ l2).
Proof.
  induction 1 as [|x l1 Hx Hl1 IH]; intros H2 Hdis; cbn; [exact H2|].
  constructor.
  - rewrite in_app_iff. intros [H|H]; [auto | apply (Hdis x); cbn; auto].
  - apply IH; [exact H2|]. intros y Hy. apply Hdis. now right.
Qed.

Lemma NoDup_map_inj {A B : Type} (f : A -> B) (l : list A) :
  (forall a b, f a = f b -> a = b) -> NoDup l -> NoDup (map f l).
Proof.
  intros Hf. induction 1 as [|x l Hx Hl IH]; cbn; constructor; [|exact IH].
  intros Hin. apply in_map_iff in Hin as (y & E & Hy).
  apply Hf in E. now subst.
Qed.

Lemma NoDup_flat_map {A B : Type} (f : A -> list B) (l : list A) :
  (forall a, In a l -> NoDup (f a)) ->
  ForallOrdPairs (fun a b => forall x, In x (f a) -> In x (f b) -> False) l ->
  NoDup (flat_map f l).
Proof.
  intros Hf Hp. induction Hp as [|a l Ha Hp IH]; cbn; [constructor|].
  apply NoDup_app_intro.
  - apply Hf. now left.
  - apply IH. intros b Hb. apply Hf. now right.
  - intros x Hx Hin. apply in_flat_map in Hin as (b & Hb & Hxb).
    rewrite Forall_forall in Ha. exact (Ha b Hb x Hx Hxb).
Qed.

Lemma distinct_names_pairs (P : node -> node -> Prop) (l : list node) :
  distinct (map name l) = true ->
  (forall a b, In a l -> In b l -> name a <> name b -> P a b) ->
  ForallOrdPairs P l.
Proof.
  induction l as [|a l IH]; cbn; intros Hd HP; constructor;
    apply andb_prop in Hd as [Ha Hl].
  - apply Forall_forall. intros b Hb. apply HP; auto.
    intros E. apply negb_true_iff in Ha.
    assert (mem (name a) (map name l) = true)
      by (rewrite E; apply mem_In, in_map, Hb).
    congruence.
  - apply IH; auto.
Qed.

Lemma ForallOrdPairs_filter {A : Type} (P : A -> A -> Prop) (q : A -> bool)
    (l : list A) :
  ForallOrdPairs P l -> ForallOrdPairs P (filter q l).
Proof.
  induction 1 as [|a l Ha Hl IH]; cbn; [constructor|].
  destruct (q a); [|exact IH]. constructor; [|exact IH].
  rewrite Forall_forall in *. intros b Hb. apply Ha.
  now apply filter_In in Hb.
Qed.

Lemma walked_paths_NoDup (d : node) :
  wf_node d = true -> forall top, NoDup (walked_paths top d).
Proof.
  induction d as [n | n | n entries IH] using node_induction;
    intros Hwf top; try constructor.
  apply wf_dir_inv in Hwf as (Hd & Hv & Hall). rewrite Forall_forall in IH.
  rewrite (walked_paths_wf top n entries Hd).
  pose proof (distinct_names_pairs
                (fun a b => forall t u, at_sep t -> at_sep u ->
                   sep_prefix top ++ name a ++ t
                   <> sep_prefix top ++ name b ++ u)
                entries Hd) as Hpairs.
  assert (Hsep : forall a b, In a entries -> In b entries ->
                   name a <> name b -> forall t u, at_sep t -> at_sep u ->
                   sep_prefix top ++ name a ++ t
                   <> sep_prefix top ++ name b ++ u).
  { intros a b Ha Hb Hab t u Ht Hu E. apply app_inv_head_str in E.
    apply Hab.
    apply (component_inj _ _ t u); auto using valid_no_slash. }
  specialize (Hpairs Hsep).
  apply NoDup_app_intro.
  - rewrite <- (map_map name (path_join top)).
    apply NoDup_map_inj.
    + intros a b E. rewrite !path_join_prefix in E.
      now apply app_inv_head_str in E.
    + apply distinct_NoDup. clear - Hd.
      induction entries as [|c l IHl]; [reflexivity|].
      cbn [map distinct] in Hd. apply andb_prop in Hd as [Hc Hl].
      cbn [filter]. destruct (is_file c); [|auto].
      cbn [map distinct]. rewrite (IHl Hl), andb_true_r.
      apply negb_true_iff. apply negb_true_iff in Hc.
      destruct (mem (name c) (map name (filter is_file l))) eqn:E;
        [|reflexivity].
      apply mem_In, in_map_iff in E as (x & Ex & Hx).
      apply filter_In in Hx as [Hx _].
      assert (mem (name c) (map name l) = true)
        by (rewrite <- Ex; apply mem_In, in_map, Hx).
      congruence.
  - apply NoDup_flat_map.
    + intros c Hc. apply filter_In in Hc as [Hin _]. now apply IH, Hall.
    + apply ForallOrdPairs_filter.
      apply distinct_names_pairs; [exact Hd|].
      intros a b Ha Hb Hab x Hxa Hxb.
      destruct (walked_under_entry top a x (Hall a Ha) (Hv a Ha) Hxa)
        as (t & Ht & ->).
      destruct (walked_under_entry top b _ (Hall b Hb) (Hv b Hb) Hxb)
        as (u & Hu & E).
      exact (Hsep a b Ha Hb Hab t u Ht Hu E).
  - intros x Hx1 Hx2. apply in_map_iff in Hx1 as (a & <- & Ha).
    apply in_flat_map in Hx2 as (b & Hb & Hxb).
    apply filter_In in Ha as [Ha Hfa]. apply filter_In in Hb as [Hb Hdb].
    apply andb_prop in Hdb as [Hdb _].
    destruct (walked_under_entry top b _ (Hall b Hb) (Hv b Hb) Hxb)
      as (u & Hu & E).
    rewrite path_join_prefix in E.
    rewrite <- (app_empty_r (name a)) in E.
    assert (Hab : name a <> name b).
    { intros Eab.
      assert (a = b) as <-.
      { clear - Hd Ha Hb Eab. induction entries as [|c l IHl]; [easy|].
        cbn [map distinct] in Hd. apply andb_prop in Hd as [Hc Hl].
        apply negb_true_iff in Hc.
        destruct Ha as [->|Ha], Hb as [->|Hb]; auto.
        - assert (mem (name a) (map name l) = true)
            by (rewrite Eab; apply mem_In, in_map, Hb). congruence.
        - assert (mem (name b) (map name l) = true)
            by (rewrite <- Eab; apply mem_In, in_map, Ha). congruence. }
      destruct a; discriminate. }
    exact (Hsep a b Ha Hb Hab "" u I Hu E).
Qed.

(** C2. For a directory tree whose listings hold valid names, none of
    them twice, the collector returns a list that holds exactly the paths
    of the files reached from the root through directories whose names are
    not excluded (so nothing below an excluded directory), each path once,
    sorted ascending by the path string, and the same list whatever the
    order of the listings is. *)
Theorem C2_collector (folder_path n : string) (entries : list node) :
  wf_node (Dir n (Some entries)) = true ->
  exists result,
    scan_folder_and_collect_files folder_path (Some (Dir n (Some entries)))
    = Returned result
    /\ (forall p,
          In p result
          <-> exists ds fname,
                file_at (Dir n (Some entries)) ds fname
                /\ Forall (fun x => excluded x = false) ds
                /\ p = path_of folder_path ds fname)
    /\ NoDup result
    /\ StronglySorted str_le result
    /\ (forall root',
          wf_node root' = true ->
          same_tree (Dir n (Some entries)) root' ->
          scan_folder_and_collect_files folder_path (Some root')
          = Returned result).
Proof.
  intros Hwf. eexists. split; [reflexivity|]. split; [|split; [|split]].
  - intros p. rewrite sorted_in. now apply walked_paths_iff.
  - apply (Permutation_NoDup (Permutation_sym (sorted_perm _ _))).
    now apply walked_paths_NoDup.
  - apply (sorted_sorted (fun p : string => p)).
  - intros root' Hwf' Hs. inversion Hs; subst.
    cbn [scan_folder_and_collect_files is_dir negb].
    f_equal. apply sorted_unique.
    + apply (sorted_sorted (fun p : string => p)).
    + apply (sorted_sorted (fun p : string => p)).
    + rewrite !sorted_perm. symmetry.
      now apply walked_paths_same_tree.
Qed.

Lemma C2_collector_witness :
  exists result,
    scan_folder_and_collect_files "/data/root" (Some sample_tree)
    = Returned result
    /\ (forall p,
          In p result
          <-> exists ds fname,
                file_at sample_tree ds fname
                /\ Forall (fun x => excluded x = false) ds
                /\ p = path_of "/data/root" ds fname)
    /\ NoDup result
    /\ StronglySorted str_le result
    /\ (forall root',
          wf_node root' = true ->
          same_tree sample_tree root' ->
          scan_folder_and_collect_files "/data/root" (Some root')
          = Returned result).
Proof.
  exact (C2_collector "/data/root" "root" sample_listing eq_refl).
Defined.

(** C9. The exclusion list prunes directories only: a regular file whose
    name is an excluded folder name, reached through directories that are
    not excluded, is in the list the collector returns and has its line in
    the rendered tree. *)
Theorem C9_excluded_names_keep_files (folder_path : string) (root : node)
    (ds : list string) (fname : string) :
  wf_node root = true ->
  In fname EXCLUDE_FOLDERS ->
  file_at root ds fname ->
  Forall (fun x => excluded x = false) ds ->
  (exists result,
     scan_folder_and_collect_files folder_path (Some root) = Returned result
     /\ In (path_of folder_path ds fname) result)
  /\ (exists pre c,
        (c = branch \/ c = last_branch)
        /\ In (pre ++ c ++ fname ++ nl) (_tree_generator root "")).
Proof.
  intros Hwf _ Hf Hex. split.
  - unfold scan_folder_and_collect_files.
    rewrite (file_at_is_dir _ _ _ Hf). cbn [negb].
    eexists. split; [reflexivity|].
    apply sorted_in, walked_paths_iff; [exact Hwf|]. now exists ds, fname.
  - now apply rendered_file with (ds := ds).
Qed.

Lemma C9_excluded_names_keep_files_witness :
  (exists result,
     scan_folder_and_collect_files "/data/root" (Some sample_tree)
     = Returned result
     /\ In (path_of "/data/root" ["src"] "temp") result)
  /\ (exists pre c,
        (c = branch \/ c = last_branch)
        /\ In (pre ++ c ++ "temp" ++ nl) (_tree_generator sample_tree "")).
Proof.
  apply (C9_excluded_names_keep_files "/data/root" sample_tree ["src"] "temp").
  - reflexivity.
  - cbn. auto 10.
  - apply (file_below "root" sample_listing sample_src [] "temp").
    + now left.
    + apply file_here. now left.
  - repeat constructor.
Defined.

(** * Further properties of the extractor *)

(** ** Blank strings *)

Lemma has_ink_app (a b : string) :
  has_ink (a ++ b) = has_ink a || has_ink b.
Proof.
  induction a as [|c a IH]; cbn; [reflexivity|].
  now rewrite IH, orb_assoc.
Qed.

Lemma lstrip_ink (s : string) : has_ink (lstrip s) = has_ink s.
Proof.
  induction s as [|c s IH]; cbn; [reflexivity|].
  destruct (isspace c) eqn:E; cbn; rewrite ?E; [exact IH | reflexivity].
Qed.

Lemma rstrip_nonempty (s : string) : nonempty (rstrip s) = has_ink s.
Proof.
  induction s as [|c s IH]; cbn; [reflexivity|].
  destruct (rstrip s) as [|d r].
  - cbn in IH. rewrite <- IH, orb_false_r. now destruct (isspace c).
  - cbn in IH. rewrite <- IH. now rewrite orb_true_r.
Qed.

(** [s.strip()] is not empty exactly when [s] holds a character that is
    not white space. *)
Lemma strip_nonempty (s : string) : nonempty (strip s) = has_ink s.
Proof. unfold strip. now rewrite rstrip_nonempty, lstrip_ink. Qed.

Lemma has_ink_concat (ls : list string) :
  has_ink (String.concat "" ls) = existsb has_ink ls.
Proof.
  induction ls as [|l ls IH]; [reflexivity|].
  rewrite concat_nosep_cons, has_ink_app, IH. reflexivity.
Qed.

Lemma join_cons (sep x : string) (l : list string) :
  l <> [] -> join sep (x :: l) = x ++ sep ++ join sep l.
Proof. destruct l; [congruence | reflexivity]. Qed.

Lemma has_ink_join_nl (ls : list string) :
  has_ink (join nl ls) = existsb has_ink ls.
Proof.
  induction ls as [|l ls IH]; [reflexivity|].
  destruct ls as [|l' ls].
  - cbn. now rewrite orb_false_r.
  - rewrite join_cons by discriminate. rewrite !has_ink_app, IH.
    reflexivity.
Qed.

(** ** Files that are not read *)

Lemma mem_cases (x : string) (l : list string) :
  mem x l = true -> Exists (eq x) l.
Proof.
  intros H. apply mem_In in H. apply Exists_exists. now exists x.
Qed.

Lemma get_binary (Document : bool) (filepath : string) (f : file_view) :
  mem (lower (suffix filepath)) binary_exts = true ->
  get_file_title_and_content Document filepath f
  = Ok (None, "", binary_note (lower (suffix filepath))).
Proof.
  intros H. pose proof (mem_cases _ _ H) as Hc.
  rewrite get_other.
  - cbv zeta. rewrite H.
    destruct (mem (lower (suffix filepath)) not_implemented_exts) eqn:E;
      [|reflexivity].
    exfalso. unfold binary_exts in Hc.
    repeat (apply Exists_cons in Hc as [Hc|Hc];
            [rewrite Hc in E; discriminate|]).
    inversion Hc.
  - intros E. rewrite E in H. discriminate.
  - destruct (String.eqb_spec (lower (suffix filepath)) ".docx") as [E|];
      [|reflexivity].
    rewrite E in H. discriminate.
Qed.

(** X1. For every extension of the binary, media, archive and shortcut
    list the extractor returns the binary note with no title and an empty
    preview, whatever the file holds and whether or not it can be read. *)
Theorem binary_not_read (Document : bool) (filepath : string)
    (f : file_view) :
  mem (lower (suffix filepath)) binary_exts = true ->
  get_file_title_and_content Document filepath f
  = Ok (None, "", binary_note (lower (suffix filepath))).
Proof. apply get_binary. Qed.

Lemma binary_not_read_witness :
  get_file_title_and_content true "/pics/Photo.JPG" sample_unreadable
  = Ok (None, "", binary_note ".jpg").
Proof.
  exact (binary_not_read true "/pics/Photo.JPG" sample_unreadable eq_refl).
Defined.

Lemma get_not_implemented (Document : bool) (filepath : string)
    (f : file_view) :
  mem (lower (suffix filepath)) not_implemented_exts = true ->
  get_file_title_and_content Document filepath f
  = Ok (None, "", not_implemented_note (lower (suffix filepath))).
Proof.
  intros H. rewrite get_other.
  - cbv zeta. now rewrite H.
  - intros E. rewrite E in H. discriminate.
  - destruct (String.eqb_spec (lower (suffix filepath)) ".docx") as [E|];
      [|reflexivity].
    rewrite E in H. discriminate.
Qed.

(** X2. For every extension of the not-yet-implemented list the extractor
    returns the "not yet implemented" note with no title and an empty
    preview, whatever the file holds and whether or not it can be read. *)
Theorem not_implemented_not_read (Document : bool) (filepath : string)
    (f : file_view) :
  mem (lower (suffix filepath)) not_implemented_exts = true ->
  get_file_title_and_content Document filepath f
  = Ok (None, "", not_implemented_note (lower (suffix filepath))).
Proof. apply get_not_implemented. Qed.

Lemma not_implemented_not_read_witness :
  get_file_title_and_content true "/docs/Thesis.PDF" sample_unreadable
  = Ok (None, "", not_implemented_note ".pdf").
Proof.
  exact (not_implemented_not_read true "/docs/Thesis.PDF" sample_unreadable
           eq_refl).
Defined.

(** ** Titles *)

Lemma rstrip_ink (s : string) : has_ink (rstrip s) = has_ink s.
Proof.
  induction s as [|c s IH]; cbn; [reflexivity|].
  pose proof (rstrip_nonempty s) as Hn.
  destruct (rstrip s) as [|d r].
  - cbn in Hn. rewrite <- Hn, orb_false_r.
    destruct (isspace c) eqn:E; cbn; now rewrite ?E.
  - rewrite <- IH. reflexivity.
Qed.

Lemma strip_ink (s : string) : has_ink (strip s) = has_ink s.
Proof. unfold strip. now rewrite rstrip_ink, lstrip_ink. Qed.

Lemma cap_ink (n : nat) (s : string) :
  has_ink s = true -> has_ink (cap n s) = true.
Proof.
  intros H. unfold cap. destruct (n <? String.length s)%nat; [|exact H].
  rewrite has_ink_app. apply orb_true_r.
Qed.

Lemma first_line_title_ink (lines : list string) (t : string) :
  first_line_title lines = Some t -> has_ink t = true.
Proof.
  induction lines as [|line rest IH]; cbn; [discriminate|].
  rewrite strip_nonempty. destruct (has_ink line) eqn:E; [|exact IH].
  intros [= <-]. apply cap_ink. now rewrite strip_ink.
Qed.

Lemma first_para_title_ink (paragraphs : list paragraph) (t : string) :
  first_para_title paragraphs = Some t ->
  has_ink t = true /\ existsb has_ink (map text paragraphs) = true.
Proof.
  induction paragraphs as [|para rest IH]; cbn; [discriminate|].
  rewrite strip_nonempty. destruct (has_ink (text para)) eqn:E.
  - intros [= <-]. split; [|reflexivity]. apply cap_ink.
    now rewrite strip_ink.
  - intros H. now apply IH in H.
Qed.

Lemma titles_found_ink (paragraphs : list paragraph) :
  Forall (fun t => has_ink t = true) (titles_found paragraphs).
Proof.
  unfold titles_found. apply Forall_forall. intros t Ht.
  apply in_map_iff in Ht as (para & <- & Hp).
  apply filter_In in Hp as [_ Hp]. apply andb_prop in Hp as [_ Hp].
  rewrite strip_nonempty in Hp. now rewrite strip_ink.
Qed.

Lemma titles_found_text (paragraphs : list paragraph) :
  titles_found paragraphs <> [] ->
  existsb has_ink (map text paragraphs) = true.
Proof.
  unfold titles_found.
  induction paragraphs as [|para rest IH]; cbn; [congruence|].
  rewrite strip_nonempty.
  destruct (has_ink (text para)); [reflexivity|].
  rewrite andb_false_r. exact IH.
Qed.

Lemma join_first_ink (sep x : string) (l : list string) :
  has_ink x = true -> has_ink (join sep (x :: l)) = true.
Proof.
  intros Hx. destruct l as [|y l]; [exact Hx|].
  rewrite join_cons by discriminate. now rewrite has_ink_app, Hx.
Qed.

Lemma docx_title_ink (paragraphs : list paragraph) (t : string) :
  docx_title paragraphs = Some t ->
  has_ink t = true /\ existsb has_ink (map text paragraphs) = true.
Proof.
  unfold docx_title. pose proof (titles_found_ink paragraphs) as Hi.
  pose proof (titles_found_text paragraphs) as Ht.
  destruct (titles_found paragraphs) as [|x found].
  - apply first_para_title_ink.
  - intros [= <-]. split; [|apply Ht; discriminate].
    apply cap_ink. inversion Hi as [|? ? Hx _]; subst.
    exact (join_first_ink "; " x (firstn 2 found) Hx).
Qed.

(** X3. A title the extractor returns always holds a character that is
    not white space; in particular it is never the empty string. *)
Theorem title_has_ink (Document : bool) (filepath : string) (f : file_view)
    (r : extracted) (t : string) :
  get_file_title_and_content Document filepath f = Ok r ->
  title_of r = Some t ->
  has_ink t = true /\ t <> "".
Proof.
  intros Hg Ht.
  assert (H : has_ink t = true); [|split; [exact H | now intros ->]].
  destruct (dispatch_cases Document (lower (suffix filepath)))
    as [Et | [[Ed ->] | [Et Ed]]].
  - rewrite (get_txt _ _ _ Et) in Hg.
    destruct (read_text f) as [content|e]; [|now injection Hg as <-].
    destruct (readlines content) as [|l ls] eqn:El; injection Hg as <-;
      [discriminate|].
    now apply (first_line_title_ink (l :: ls)).
  - rewrite (get_docx _ _ Ed) in Hg.
    destruct (open_docx f) as [ps|e]; injection Hg as <-; [|discriminate].
    now apply (docx_title_ink ps).
  - rewrite (other_title _ _ _ _ Et Ed Hg) in Ht. discriminate.
Qed.

Lemma title_has_ink_witness :
  has_ink "Scope; Plan" = true /\ "Scope; Plan" <> "".
Proof.
  apply (title_has_ink true "/docs/Plan.docx" sample_headings
           (Some "Scope; Plan",
            " Scope " ++ nl ++ "Body text" ++ nl ++ "Plan", ""));
    reflexivity.
Defined.

Lemma first_line_title_none (lines : list string) :
  first_line_title lines = None <-> existsb has_ink lines = false.
Proof.
  induction lines as [|line rest IH]; cbn; [tauto|].
  rewrite strip_nonempty. destruct (has_ink line); cbn; [|exact IH].
  split; discriminate.
Qed.

(** X4. A readable .txt file gets a title exactly when its text holds a
    character that is not white space. *)
Theorem txt_title_iff_ink (Document : bool) (filepath : string)
    (f : file_view) (content : string) :
  lower (suffix filepath) = ".txt" ->
  read_text f = Ok content ->
  exists r,
    get_file_title_and_content Document filepath f = Ok r
    /\ (title_of r = None <-> has_ink content = false).
Proof.
  intros Et Hr. rewrite (get_txt _ _ _ Et), Hr.
  replace (has_ink content) with (existsb has_ink (readlines content))
    by now rewrite <- has_ink_concat, concat_readlines.
  destruct (readlines content) as [|l ls] eqn:El.
  - eexists. split; [reflexivity|]. cbn. tauto.
  - eexists. split; [reflexivity|]. apply (first_line_title_none (l :: ls)).
Qed.

Lemma txt_title_iff_ink_witness :
  exists r,
    get_file_title_and_content true "/notes/blank.txt" sample_blank = Ok r
    /\ (title_of r = None <-> has_ink ("   " ++ nl ++ " ") = false).
Proof.
  apply (txt_title_iff_ink true "/notes/blank.txt" sample_blank);
    reflexivity.
Defined.

(** ** Truncation *)

Lemma length_take_le (n : nat) (s : string) :
  n <= String.length s -> String.length (take n s) = n.
Proof. intros H. unfold take. rewrite length_substring0. lia. Qed.

Lemma take_prefix (n : nat) (s : string) : exists rest, s = take n s ++ rest.
Proof.
  unfold take. revert s. induction n as [|n IH]; intros s.
  - exists s. now destruct s.
  - destruct s as [|c s]; [now exists ""|].
    destruct (IH s) as (rest & E). exists rest. cbn. now rewrite <- E.
Qed.

(** X5. On the text and fallback paths a text longer than the character
    cap is cut to exactly its first MAX_CONTENT_PREVIEW_CHARS characters
    followed by the truncation marker, so the preview is exactly
    MAX_CONTENT_PREVIEW_CHARS + 24 characters long. *)
Theorem char_cap_truncation (Document : bool) (filepath : string)
    (f : file_view) (content : string) :
  text_path Document (lower (suffix filepath)) = true ->
  read_text f = Ok content ->
  MAX_CONTENT_PREVIEW_CHARS < String.length content ->
  exists r,
    get_file_title_and_content Document filepath f = Ok r
    /\ preview_of r = take MAX_CONTENT_PREVIEW_CHARS content ++ truncation_marker
    /\ String.length (preview_of r) = MAX_CONTENT_PREVIEW_CHARS + 24.
Proof.
  intros Hp Hr Hlen.
  destruct (text_path_result Document filepath f content Hp Hr)
    as (title & notes & E).
  eexists. split; [exact E|]. unfold preview_of; cbn [fst snd].
  destruct (readlines content) as [|l ls] eqn:El.
  - apply readlines_nil in El. subst content. cbn in Hlen. lia.
  - rewrite <- El. unfold text_preview. rewrite concat_readlines.
    destruct (Nat.ltb_spec MAX_CONTENT_PREVIEW_CHARS (String.length content));
      [|lia].
    split; [reflexivity|]. rewrite str_length_app, length_take_le by lia.
    reflexivity.
Qed.

Lemma char_cap_truncation_witness :
  exists r,
    get_file_title_and_content true "/notes/big.txt" sample_big = Ok r
    /\ preview_of r
       = take MAX_CONTENT_PREVIEW_CHARS
           (String.concat "" (repeat "abcdefghij" 201))
         ++ truncation_marker
    /\ String.length (preview_of r) = MAX_CONTENT_PREVIEW_CHARS + 24.
Proof.
  apply (char_cap_truncation true "/notes/big.txt" sample_big).
  - reflexivity.
  - reflexivity.
  - vm_compute. lia.
Defined.

(** X6. On the text and fallback paths the preview is a leading part of
    the text of the file, either all of it or followed by the truncation
    marker: nothing else is ever put into a preview. *)
Theorem preview_is_prefix (Document : bool) (filepath : string)
    (f : file_view) (content : string) :
  text_path Document (lower (suffix filepath)) = true ->
  read_text f = Ok content ->
  exists r kept rest,
    get_file_title_and_content Document filepath f = Ok r
    /\ content = kept ++ rest
    /\ (preview_of r = kept ++ truncation_marker
        \/ (rest = "" /\ preview_of r = kept)).
Proof.
  intros Hp Hr.
  destruct (text_path_result Document filepath f content Hp Hr)
    as (title & notes & E).
  destruct (readlines content) as [|l ls] eqn:El.
  - apply readlines_nil in El. subst content.
    exists (title, "", notes), "", "". auto.
  - rewrite <- El in E. unfold text_preview in E.
    rewrite concat_readlines in E.
    destruct (MAX_CONTENT_PREVIEW_CHARS <? String.length content)%nat.
    + destruct (take_prefix MAX_CONTENT_PREVIEW_CHARS content) as (rest & Er).
      eexists _, _, rest. split; [exact E|]. split; [exact Er|]. now left.
    + destruct (MAX_CONTENT_PREVIEW_LINES <? List.length (readlines content))%nat.
      * eexists _, _, _. split; [exact E|]. split; [|now left].
        rewrite <- concat_nosep_app, firstn_skipn.
        symmetry. apply concat_readlines.
      * exists (title, content, notes), content, "".
        split; [exact E|]. split; [now rewrite app_empty_r | now right].
Qed.

Lemma preview_is_prefix_witness :
  exists r kept rest,
    get_file_title_and_content true "/docs/a/b.txt" sample_text = Ok r
    /\ "Hello" ++ nl ++ "World" = kept ++ rest
    /\ (preview_of r = kept ++ truncation_marker
        \/ (rest = "" /\ preview_of r = kept)).
Proof.
  apply (preview_is_prefix true "/docs/a/b.txt" sample_text);
    reflexivity.
Defined.

(** ** Notes *)

Lemma docx_preview_ink (paragraphs : list paragraph) :
  existsb has_ink (map text paragraphs) = true ->
  has_ink (docx_preview paragraphs) = true.
Proof.
  intros H. unfold docx_preview. cbv zeta.
  destruct (_ <? String.length _)%nat;
    [rewrite has_ink_app; apply orb_true_r|].
  destruct (_ <? List.length _)%nat;
    [rewrite has_ink_app; apply orb_true_r|].
  now rewrite has_ink_join_nl.
Qed.

(** X7. For a parsed .docx file the note "[DOCX has headings but no other
    significant body text found for preview]" is never written: when a
    title is found the preview holds visible text and the note is empty,
    and without a title the note is "[DOCX appears empty or has no
    extractable text/headings]" exactly when the preview is blank. *)
Theorem docx_notes_cases (filepath : string) (f : file_view)
    (paragraphs : list paragraph) :
  lower (suffix filepath) = ".docx" ->
  open_docx f = Ok paragraphs ->
  exists r,
    get_file_title_and_content true filepath f = Ok r
    /\ notes_of r
       <> "[DOCX has headings but no other significant body text found for preview]"
    /\ (title_of r <> None ->
        notes_of r = "" /\ has_ink (preview_of r) = true)
    /\ (title_of r = None ->
        (notes_of r
         = "[DOCX appears empty or has no extractable text/headings]"
         <-> has_ink (preview_of r) = false)).
Proof.
  intros Ed Eo. rewrite (get_docx _ _ Ed), Eo. eexists. split; [reflexivity|].
  unfold notes_of, title_of, preview_of; cbn [fst snd]. unfold docx_notes.
  rewrite strip_nonempty.
  destruct (docx_title paragraphs) as [t|] eqn:Et.
  - destruct (docx_title_ink _ _ Et) as [Hi Hp].
    apply docx_preview_ink in Hp. rewrite Hp. cbn [negb andb].
    repeat split; try discriminate; auto.
  - cbn [truthy negb]. rewrite andb_true_r, andb_false_r.
    destruct (has_ink (docx_preview paragraphs)); cbn [negb];
      repeat split; try discriminate; try congruence.
Qed.

Lemma docx_notes_cases_witness :
  exists r,
    get_file_title_and_content true "/docs/Plan.docx" sample_headings = Ok r
    /\ notes_of r
       <> "[DOCX has headings but no other significant body text found for preview]"
    /\ (title_of r <> None ->
        notes_of r = "" /\ has_ink (preview_of r) = true)
    /\ (title_of r = None ->
        (notes_of r
         = "[DOCX appears empty or has no extractable text/headings]"
         <-> has_ink (preview_of r) = false)).
Proof.
  exact (docx_notes_cases "/docs/Plan.docx" sample_headings _ eq_refl eq_refl).
Defined.

Lemma get_fallback (Document : bool) (filepath : string) (f : file_view) :
  lower (suffix filepath) <> ".txt" ->
  text_path Document (lower (suffix filepath)) = true ->
  get_file_title_and_content Document filepath f
  = Ok (fallback_branch (lower (suffix filepath)) f).
Proof.
  intros Et Hp. unfold text_path in Hp.
  apply String.eqb_neq in Et. rewrite Et in Hp. cbn [orb] in Hp.
  apply andb_prop in Hp as [Hp Hb]. apply andb_prop in Hp as [Hd Hn].
  apply negb_true_iff in Hd, Hn, Hb. apply String.eqb_neq in Et.
  rewrite (get_other _ _ _ Et Hd). cbv zeta. now rewrite Hn, Hb.
Qed.

Lemma text_preview_ink (content : string) :
  has_ink content = true ->
  has_ink (text_preview (readlines content)) = true.
Proof.
  intros H. unfold text_preview. rewrite concat_readlines.
  destruct (_ <? String.length _)%nat;
    [rewrite has_ink_app; apply orb_true_r|].
  destruct (_ <? List.length _)%nat;
    [rewrite has_ink_app; apply orb_true_r | exact H].
Qed.

(** X8. For a readable file of an unknown extension the extractor returns
    no title; the note is "[Attempted text extraction for unknown type
    <ext>]" when the text holds a visible character, and "[Unknown file type
    (<ext>), appears empty or unreadable as text]" with the text itself as
    preview when the text is blank and within both caps. *)
Theorem fallback_notes (Document : bool) (filepath : string) (f : file_view)
    (content : string) :
  lower (suffix filepath) <> ".txt" ->
  text_path Document (lower (suffix filepath)) = true ->
  read_text f = Ok content ->
  exists r,
    get_file_title_and_content Document filepath f = Ok r
    /\ title_of r = None
    /\ (has_ink content = true ->
        notes_of r = attempted_note (lower (suffix filepath)))
    /\ (has_ink content = false ->
        String.length content <= MAX_CONTENT_PREVIEW_CHARS ->
        List.length (readlines content) <= MAX_CONTENT_PREVIEW_LINES ->
        notes_of r = unknown_empty_note (lower (suffix filepath))
        /\ preview_of r = content).
Proof.
  intros Et Hp Hr. rewrite (get_fallback _ _ _ Et Hp).
  eexists. split; [reflexivity|]. split; [apply fallback_branch_title|].
  unfold fallback_branch. rewrite Hr. cbv zeta.
  destruct (readlines content) as [|l ls] eqn:El.
  - apply readlines_nil in El. subst content. split; [discriminate|].
    intros _ _ _. split; reflexivity.
  - rewrite <- El. rewrite strip_nonempty. split.
    + intros Hi. now rewrite (text_preview_ink content Hi).
    + intros Hi Hc Hl. rewrite (text_preview_full content Hc Hl), Hi.
      split; reflexivity.
Qed.

Lemma fallback_notes_witness :
  exists r,
    get_file_title_and_content true "/data/readme.xyz123" sample_text = Ok r
    /\ title_of r = None
    /\ (has_ink ("Hello" ++ nl ++ "World") = true ->
        notes_of r = attempted_note (lower (suffix "/data/readme.xyz123")))
    /\ (has_ink ("Hello" ++ nl ++ "World") = false ->
        String.length ("Hello" ++ nl ++ "World") <= MAX_CONTENT_PREVIEW_CHARS ->
        List.length (readlines ("Hello" ++ nl ++ "World"))
        <= MAX_CONTENT_PREVIEW_LINES ->
        notes_of r = unknown_empty_note (lower (suffix "/data/readme.xyz123"))
        /\ preview_of r = "Hello" ++ nl ++ "World").
Proof.
  apply (fallback_notes true "/data/readme.xyz123" sample_text).
  - discriminate.
  - reflexivity.
  - reflexivity.
Defined.

(** * Further properties of the tree renderer and the collector *)

Lemma kept_dirs_without (l1 l2 : list node) (d : string)
    (listing : option (list node)) :
  excluded d = true ->
  kept_dirs (l1 ++ Dir d listing :: l2)%list = kept_dirs (l1 ++ l2)%list.
Proof.
  intros Hd. unfold kept_dirs. rewrite !filter_app. cbn [filter is_dir name].
  unfold excluded in Hd. now rewrite Hd.
Qed.

Lemma plain_files_without (l1 l2 : list node) (d : string)
    (listing : option (list node)) :
  plain_files (l1 ++ Dir d listing :: l2)%list = plain_files (l1 ++ l2)%list.
Proof. unfold plain_files. now rewrite !filter_app. Qed.

(** X9. An excluded directory is pruned from the rendered tree with all it
    holds: the renderer writes for a listing with an excluded directory
    what it writes for the listing without it. *)
Theorem render_without_excluded (n : string) (l1 l2 : list node) (d : string)
    (listing : option (list node)) (prefix : string) :
  excluded d = true ->
  _tree_generator (Dir n (Some (l1 ++ Dir d listing :: l2)%list)) prefix
  = _tree_generator (Dir n (Some (l1 ++ l2)%list)) prefix.
Proof.
  intros Hd. rewrite !_tree_generator_eq. unfold items_of.
  now rewrite (kept_dirs_without _ _ _ _ Hd), plain_files_without.
Qed.

Lemma render_without_excluded_witness :
  _tree_generator
    (Dir "root" (Some ([File "a.txt"]
                       ++ Dir "node_modules" (Some [File "x.js"])
                       :: [File "b.txt"])%list)) ""
  = _tree_generator (Dir "root" (Some ([File "a.txt"] ++ [File "b.txt"])%list)) "".
Proof.
  exact (render_without_excluded "root" [File "a.txt"] [File "b.txt"]
           "node_modules" (Some [File "x.js"]) "" eq_refl).
Defined.

Lemma find_without {A : Type} (p : A -> bool) (l1 l2 : list A) (x : A) :
  p x = false -> find p (l1 ++ x :: l2) = find p (l1 ++ l2)%list.
Proof.
  intros Hx. induction l1 as [|y l1 IH]; cbn; [now rewrite Hx|].
  now destruct (p y).
Qed.

Lemma walked_without_excluded (top n : string) (l1 l2 : list node)
    (d : string) (listing : option (list node)) :
  excluded d = true ->
  walked_paths top (Dir n (Some (l1 ++ Dir d listing :: l2)%list))
  = walked_paths top (Dir n (Some (l1 ++ l2)%list)).
Proof.
  intros Hd. rewrite !walked_paths_eq. f_equal.
  - now rewrite !filter_app.
  - assert (E : prune_excluded
                  (map name (filter is_dir (l1 ++ Dir d listing :: l2)%list))
                = prune_excluded (map name (filter is_dir (l1 ++ l2)%list))).
    { unfold prune_excluded. rewrite !filter_app, !map_app, !filter_app.
      cbn [filter is_dir map name]. unfold excluded in Hd. now rewrite Hd. }
    rewrite E. apply flat_map_ext_in. intros dirname Hin.
    rewrite find_without; [reflexivity|]. cbn [is_dir name andb].
    apply String.eqb_neq. intros <-.
    unfold prune_excluded in Hin. apply filter_In in Hin as [_ Hn].
    unfold excluded in Hd. rewrite Hd in Hn. discriminate.
Qed.

(** X10. An excluded directory is pruned from the collection with all it
    holds: the collector returns for a root listing with an excluded
    directory what it returns for the listing without it. *)
Theorem scan_without_excluded (folder_path n : string) (l1 l2 : list node)
    (d : string) (listing : option (list node)) :
  excluded d = true ->
  scan_folder_and_collect_files folder_path
    (Some (Dir n (Some (l1 ++ Dir d listing :: l2)%list)))
  = scan_folder_and_collect_files folder_path
      (Some (Dir n (Some (l1 ++ l2)%list))).
Proof.
  intros Hd. cbn [scan_folder_and_collect_files is_dir negb].
  now rewrite (walked_without_excluded _ _ _ _ _ _ Hd).
Qed.

Lemma scan_without_excluded_witness :
  scan_folder_and_collect_files "/data/root"
    (Some (Dir "root" (Some ([File "a.txt"]
                             ++ Dir "node_modules" (Some [File "x.js"])
                             :: [File "b.txt"])%list)))
  = scan_folder_and_collect_files "/data/root"
      (Some (Dir "root" (Some ([File "a.txt"] ++ [File "b.txt"])%list))).
Proof.
  exact (scan_without_excluded "/data/root" "root" [File "a.txt"]
           [File "b.txt"] "node_modules" (Some [File "x.js"]) eq_refl).
Defined.




Lemma connector_at_position {A : Type} (before after : list A) (item : A) :
  connector_at (List.length (before ++ item :: after)) (List.length before)
  = match after with [] => last_branch | _ => branch end
  /\ indent_at (List.length (before ++ item :: after)) (List.length before)
     = match after with [] => "    " | _ => "│   " end.
Proof.
  unfold connector_at, indent_at. rewrite List.length_app. cbn [List.length].
  destruct after as [|a after]; cbn [List.length].
  - replace (List.length before + 1 - 1) with (List.length before) by lia.
    now rewrite Nat.eqb_refl.
  - destruct (Nat.eqb_spec (List.length before)
                (List.length before + S (S (List.length after)) - 1));
      [lia | auto].
Qed.

Lemma render_items_block (prefix : string) (n i : nat) (item : node)
    (rest : list node) :
  render_items prefix n i (item :: rest)
  = (entry_block prefix n i item ++ render_items prefix n (S i) rest)%list.
Proof. unfold entry_block. cbn [render_items]. now destruct (is_dir item). Qed.

(** X12. Among the children of a rendered directory the last one is
    written with the last-branch connector and its own children are
    indented with blanks; every other child is written with the branch
    connector and its children are indented with a vertical bar. *)
Theorem connector_rule (n : string) (entries before after : list node)
    (item : node) (prefix : string) :
  items_of entries = (before ++ item :: after)%list ->
  let len := List.length (items_of entries) in
  let i := List.length before in
  _tree_generator (Dir n (Some entries)) prefix
  = (render_items prefix len 0 before
     ++ entry_block prefix len i item
     ++ render_items prefix len (S i) after)%list
  /\ connector_at len i = match after with [] => last_branch | _ => branch end
  /\ indent_at len i = match after with [] => "    " | _ => "│   " end.
Proof.
  intros E len i. subst len i. split.
  - rewrite _tree_generator_eq, E, render_items_app, render_items_block.
    reflexivity.
  - rewrite E. apply connector_at_position.
Qed.

Lemma connector_rule_witness :
  _tree_generator sample_tree ""
  = (render_items "" 4 0 [File ".git"; File "README"; Dir "locked" None]
     ++ entry_block "" 4 3 sample_src
     ++ render_items "" 4 4 [])%list
  /\ connector_at 4 3 = last_branch
  /\ indent_at 4 3 = "    ".
Proof.
  exact (connector_rule "root" sample_listing
           [File ".git"; File "README"; Dir "locked" None] [] sample_src ""
           eq_refl).
Defined.



(** * Properties of the report *)






Lemma prefix_app (a b : string) : prefix a (a ++ b) = true.
Proof.
  induction a as [|c a IH]; cbn; [now destruct b|].
  destruct (ascii_dec c c); [exact IH | congruence].
Qed.

(** X15. Every file entry of the report explains itself: after the
    location line it holds a notes line or a content-preview line, for
    every result the extractor can return. *)
Theorem entry_has_notes_or_preview (r : extracted) :
  exists line,
    In line (entry_body r)
    /\ (prefix "Notes: " line = true
        \/ prefix "Content Preview:" line = true).
Proof.
  destruct r as [[title content_preview] content_notes]. unfold entry_body.
  destruct (nonempty content_preview && nonempty (strip content_preview)).
  - eexists. split.
    + apply in_or_app. right. apply in_or_app. right.
      apply in_or_app. left. left. reflexivity.
    + right. reflexivity.
  - destruct (nonempty content_notes) eqn:En.
    + eexists. split.
      * apply in_or_app. right. apply in_or_app. left. left. reflexivity.
      * left. apply prefix_app.
    + cbn [negb orb]. eexists. split.
      * apply in_or_app. right. apply in_or_app. right.
        apply in_or_app. left. left. reflexivity.
      * right. reflexivity.
Qed.

Lemma contains_app_r (sub a b : string) :
  contains sub b = true -> contains sub (a ++ b) = true.
Proof.
  intros H. induction a as [|c a IH]; [exact H|].
  cbn [append contains]. rewrite IH. apply orb_true_r.
Qed.

Lemma contains_binary (extension : string) :
  contains "Binary" (binary_note extension) = true.
Proof. reflexivity. Qed.

Lemma contains_not_implemented (extension : string) :
  contains "not yet implemented" (not_implemented_note extension) = true.
Proof.
  unfold not_implemented_note.
  apply contains_app_r, contains_app_r. reflexivity.
Qed.

(** X16. For a file of a binary, media, archive, shortcut or
    not-yet-implemented type the report entry holds, after the heading
    lines, the notes line and the closing rule only: no title line and no
    content-preview line. *)
Theorem entry_of_unread_file (Document : bool)
    (view_of : string -> file_view) (i : nat) (p : string) :
  mem (lower (suffix p)) (not_implemented_exts ++ binary_exts) = true ->
  exists note,
    file_entry Document view_of i p
    = Ok (entry_heading i p
            ++ [("Notes: " ++ note ++ nl)%string; entry_rule])%list
    /\ (note = binary_note (lower (suffix p))
        \/ note = not_implemented_note (lower (suffix p))).
Proof.
  intros H. unfold mem in H. rewrite existsb_app in H.
  apply orb_prop in H as [H|H].
  - exists (not_implemented_note (lower (suffix p))). split; [|now right].
    unfold file_entry.
    rewrite (get_not_implemented Document p (view_of p) H).
    unfold entry_body. cbn [nonempty String.eqb negb andb app].
    rewrite contains_not_implemented. cbn [negb].
    rewrite andb_false_r. reflexivity.
  - exists (binary_note (lower (suffix p))). split; [|now left].
    unfold file_entry. rewrite (get_binary Document p (view_of p) H).
    unfold entry_body. cbn [nonempty String.eqb negb andb app].
    rewrite contains_binary. cbn [negb].
    rewrite andb_false_r. reflexivity.
Qed.

Lemma entry_of_unread_file_witness :
  exists note,
    file_entry true sample_views 4 "/data/root/pic.PNG"
    = Ok (entry_heading 4 "/data/root/pic.PNG"
            ++ [("Notes: " ++ note ++ nl)%string; entry_rule])%list
    /\ (note = binary_note (lower (suffix "/data/root/pic.PNG"))
        \/ note = not_implemented_note (lower (suffix "/data/root/pic.PNG"))).
Proof.
  exact (entry_of_unread_file true sample_views 4 "/data/root/pic.PNG"
           eq_refl).
Defined.

Lemma items_of_all_excluded (entries : list node) :
  Forall (fun c => is_dir c = true /\ excluded (name c) = true) entries ->
  items_of entries = [].
Proof.
  intros H. unfold items_of, kept_dirs, plain_files.
  induction H as [|c l [Hd He] Hl IH]; [reflexivity|].
  cbn [filter]. unfold excluded in He. rewrite Hd, He. cbn [negb andb].
  destruct c; [discriminate|]. cbn [is_file]. exact IH.
Qed.

(** X17. For a folder that is empty or holds excluded folders only, the
    tree section consists of its title line, the rule, the line of the
    root and the closing rule. *)
Theorem tree_of_pruned_folder (folder_path_str n : string)
    (entries : list node) :
  Forall (fun c => is_dir c = true /\ excluded (name c) = true) entries ->
  generate_directory_tree folder_path_str (Dir n (Some entries))
  = ["Directory Tree for: " ++ folder_path_str ++ nl;
     times "=" 50 ++ nl;
     path_name folder_path_str ++ "/" ++ nl;
     times "=" 50 ++ nl ++ nl].
Proof.
  intros H. unfold generate_directory_tree.
  now rewrite _tree_generator_eq, (items_of_all_excluded entries H).
Qed.

Lemma tree_of_pruned_folder_witness :
  generate_directory_tree "/work/proj"
    (Dir "proj" (Some [Dir ".git" (Some [File "HEAD"]); Dir "temp" None]))
  = ["Directory Tree for: /work/proj" ++ nl;
     times "=" 50 ++ nl;
     path_name "/work/proj" ++ "/" ++ nl;
     times "=" 50 ++ nl ++ nl].
Proof.
  apply (tree_of_pruned_folder "/work/proj" "proj").
  repeat constructor.
Defined.

Lemma suffix_shape (filepath : string) :
  suffix filepath = "" \/ exists t, suffix filepath = String "." t.
Proof.
  unfold suffix. cbv zeta.
  destruct (after_last "." (path_name filepath)) as [t|]; [|now left].
  destruct (_ && _); [right; now exists t | now left].
Qed.

(** X18. The type the report shows for a file is the lower-cased
    extension the extractor dispatches on, or "[no extension]" when the
    name has no extension. *)
Theorem type_label_is_extension (file_path_item : string) :
  type_label file_path_item
  = if nonempty (suffix file_path_item) then lower (suffix file_path_item)
    else "[no extension]".
Proof.
  unfold type_label. cbv zeta.
  destruct (suffix_shape file_path_item) as [E | (t & E)]; rewrite E;
    reflexivity.
Qed.

(** X19. The report entry of an empty .txt file holds, after the heading
    lines, the note "[Empty text file]" and the closing rule only. *)
Theorem entry_of_empty_txt (Document : bool) (view_of : string -> file_view)
    (i : nat) (p : string) :
  lower (suffix p) = ".txt" ->
  read_text (view_of p) = Ok "" ->
  file_entry Document view_of i p
  = Ok (entry_heading i p
          ++ [("Notes: [Empty text file]" ++ nl)%string; entry_rule])%list.
Proof.
  intros Et Hr. unfold file_entry. rewrite (get_txt _ _ _ Et), Hr.
  reflexivity.
Qed.

Lemma entry_of_empty_txt_witness :
  file_entry true sample_views 7 "/data/root/notes/empty.TXT"
  = Ok (entry_heading 7 "/data/root/notes/empty.TXT"
          ++ [("Notes: [Empty text file]" ++ nl)%string; entry_rule])%list.
Proof.
  exact (entry_of_empty_txt true sample_views 7 "/data/root/notes/empty.TXT"
           eq_refl eq_refl).
Defined.

(** X20. A .txt file that holds white space only, within both caps, has no
    title, no note and a blank preview, and its report entry holds, after
    the heading lines, the "Not available" line and the closing rule. *)
Theorem entry_of_blank_txt (Document : bool) (view_of : string -> file_view)
    (i : nat) (p content : string) :
  lower (suffix p) = ".txt" ->
  read_text (view_of p) = Ok content ->
  content <> "" ->
  has_ink content = false ->
  String.length content <= MAX_CONTENT_PREVIEW_CHARS ->
  List.length (readlines content) <= MAX_CONTENT_PREVIEW_LINES ->
  get_file_title_and_content Document p (view_of p) = Ok (None, content, "")
  /\ file_entry Document view_of i p
     = Ok (entry_heading i p ++ [not_available_line; entry_rule])%list.
Proof.
  intros Et Hr Hne Hi Hc Hl.
  assert (E : get_file_title_and_content Document p (view_of p)
              = Ok (None, content, "")).
  { rewrite (get_txt _ _ _ Et), Hr.
    destruct (readlines content) as [|l ls] eqn:El;
      [now apply readlines_nil in El|].
    cbv iota zeta. rewrite <- El in *.
    rewrite (text_preview_full content Hc Hl).
    assert (Ht : first_line_title (readlines content) = None).
    { apply first_line_title_none.
      now rewrite <- has_ink_concat, concat_readlines. }
    now rewrite Ht. }
  split; [exact E|]. unfold file_entry. rewrite E. unfold entry_body.
  rewrite strip_nonempty, Hi, andb_false_r. reflexivity.
Qed.

Lemma entry_of_blank_txt_witness :
  get_file_title_and_content true "/notes/blank.txt"
    ((fun _ => sample_blank) "/notes/blank.txt")
  = Ok (None, "   " ++ nl ++ " ", "")
  /\ file_entry true (fun _ => sample_blank) 3 "/notes/blank.txt"
     = Ok (entry_heading 3 "/notes/blank.txt"
             ++ [not_available_line; entry_rule])%list.
Proof.
  apply (entry_of_blank_txt true (fun _ => sample_blank) 3 "/notes/blank.txt"
           ("   " ++ nl ++ " ")).
  - reflexivity.
  - reflexivity.
  - discriminate.
  - reflexivity.
  - vm_compute. lia.
  - vm_compute. lia.
Defined.
